(** * CORD-19 Data Explorer: the loader, the year filter and the title
    word analysis of [streamlit_app.py], embedded in Rocq.

    Python values are modelled as follows.
    - A [str] is a [string]; its characters are the code points 0..255
      (the Latin-1 range of Python's Unicode strings), so that [lower],
      [\w] and [str.split] follow Python's tables on that range.
    - A pandas cell that may be missing (NaN, None, NaT) is an [option].
    - A [DataFrame] is the list of its rows, in index order; a row is a
      record with one field per column.
    - [int16] columns are [Z] with the wrap-around written out ([wrap16]).
    - A [Counter] is an association list in insertion order (Python dicts
      keep insertion order, and [most_common] depends on it).
    - A CSV file on disk is the list of its rows, every cell as its text;
      the files are well-formed and have the four columns. [read_csv]
      returns the rows with the type it infers for the title column, on
      which the [.str] accessor depends.
    - Exceptions, the files on disk, numpy's global random generator,
      Streamlit's cache, the slider and the rendered page are threaded
      through a state-and-error monad [M]. *)

From Stdlib Require Import String Ascii Bool Arith NArith ZArith Lia List.
From Stdlib Require Import Permutation Sorted.
Import ListNotations.

Set Implicit Arguments.

Open Scope string_scope.
Open Scope list_scope.
Open Scope nat_scope.

(* ================================================================= *)
(** ** Characters *)

Module Char.

Definition code (c : ascii) : N := N_of_ascii c.

Definition between (lo hi : N) (c : ascii) : bool :=
  ((lo <=? code c) && (code c <=? hi))%N.

Definition is_ascii_upper (c : ascii) : bool := between 65 90 c.
Definition is_ascii_lower (c : ascii) : bool := between 97 122 c.

(** The character class [[a-zA-Z]]. *)
Definition is_alpha (c : ascii) : bool := is_ascii_upper c || is_ascii_lower c.

Definition is_digit (c : ascii) : bool := between 48 57 c.

(** Letters and numeric characters of the Latin-1 supplement:
    [ª ² ³ µ ¹ º ¼ ½ ¾], [À..Ö], [Ø..ö], [ø..ÿ]. *)
Definition is_latin1_alnum (c : ascii) : bool :=
  ((code c =? 170) || (code c =? 178) || (code c =? 179) || (code c =? 181)
   || (code c =? 185) || (code c =? 186))%N
  || between 188 190 c || between 192 214 c || between 216 246 c
  || between 248 255 c.

(** The class [\w] of a [str] pattern: alphanumeric or underscore. *)
Definition is_word (c : ascii) : bool :=
  is_alpha c || is_digit c || (code c =? 95)%N || is_latin1_alnum c.

(** [str.isspace]: TAB..CR, FS..US, space, NEL and NBSP. *)
Definition is_space (c : ascii) : bool :=
  between 9 13 c || between 28 32 c || (code c =? 133)%N || (code c =? 160)%N.

(** Characters with a lowercase mapping: [A..Z], [À..Þ] except [×]. *)
Definition is_upper (c : ascii) : bool :=
  is_ascii_upper c || (between 192 222 c && negb (code c =? 215)%N).

Definition lower (c : ascii) : ascii :=
  if is_upper c then ascii_of_N (code c + 32) else c.

End Char.

(* ================================================================= *)
(** ** Strings *)

Definition chars (s : string) : list ascii := list_ascii_of_string s.
Definition str (l : list ascii) : string := string_of_list_ascii l.

(** [s.lower()] *)
Definition str_lower (s : string) : string := str (map Char.lower (chars s)).

(** [p] holds of the character [o], when there is one. *)
Definition holds_at (p : ascii -> bool) (o : option ascii) : bool :=
  match o with
  | Some c => p c
  | None => false
  end.

(** [flush cur]: the pending run, when there is one. *)
Definition flush (cur : list ascii) : list (list ascii) :=
  match cur with
  | [] => []
  | _ :: _ => [cur]
  end.

(** The maximal runs of characters satisfying [p], left to right; [cur] is
    the run being read. *)
Fixpoint runs (p : ascii -> bool) (cur s : list ascii) : list (list ascii) :=
  match s with
  | [] => flush cur
  | c :: s' => if p c then runs p (cur ++ [c]) s' else flush cur ++ runs p [] s'
  end.

Definition maximal_runs (p : ascii -> bool) (s : list ascii) : list (list ascii) :=
  runs p [] s.

(** [s.split()]: the maximal runs of non-whitespace characters. *)
Definition str_split (s : string) : list string :=
  map str (maximal_runs (fun c => negb (Char.is_space c)) (chars s)).

(* ================================================================= *)
(** ** The regular expression [\b[a-zA-Z]{3,}\b] *)

Module Regex.

Definition is_word_at (o : option ascii) : bool :=
  match o with
  | Some c => Char.is_word c
  | None => false
  end.

(** [\b] between two neighbouring positions: exactly one side is a word
    character; outside the string counts as a non-word character. *)
Definition word_boundary (prev next : option ascii) : bool :=
  xorb (is_word_at prev) (is_word_at next).

(** The longest prefix of letters, and what follows it. *)
Fixpoint span_alpha (s : list ascii) : list ascii * list ascii :=
  match s with
  | [] => ([], [])
  | c :: s' =>
      if Char.is_alpha c
      then let (run, rest) := span_alpha s' in (c :: run, rest)
      else ([], s)
  end.

Definition last_char (prev : option ascii) (l : list ascii) : option ascii :=
  last (map Some l) prev.

(** Greedy [{3,}] with backtracking: try [k] letters, the longest first,
    down to 3, and keep the first [k] after which [\b] holds. *)
Fixpoint try_lengths (k : nat) (run rest : list ascii) : option (list ascii) :=
  match k with
  | 0 => None
  | S k' =>
      if k <? 3 then None
      else
        let tok := firstn k run in
        let after := skipn k run ++ rest in
        if word_boundary (last_char None tok) (hd_error after)
        then Some tok
        else try_lengths k' run rest
  end.

(** An attempt to match the pattern at the head of [s], [prev] being the
    character before it. *)
Definition match_here (prev : option ascii) (s : list ascii) : option (list ascii) :=
  if word_boundary prev (hd_error s)
  then let (run, rest) := span_alpha s in try_lengths (length run) run rest
  else None.

(** The scan of [re.findall]: at each position try a match; after a match
    resume at its end ([skip] counts the characters of the match still to
    be passed over), after a failure move one character on. *)
Fixpoint scan (prev : option ascii) (skip : nat) (s : list ascii) : list (list ascii) :=
  match s with
  | [] => []
  | c :: s' =>
      match skip with
      | S k => scan (Some c) k s'
      | 0 =>
          match match_here prev s with
          | Some tok => tok :: scan (Some c) (length tok - 1) s'
          | None => scan (Some c) 0 s'
          end
      end
  end.

Definition findall_chars (s : list ascii) : list (list ascii) := scan None 0 s.

(** [re.findall(r'\b[a-zA-Z]{3,}\b', s)] *)
Definition findall (s : string) : list string := map str (findall_chars (chars s)).

End Regex.

(* ================================================================= *)
(** ** Title word analysis ([get_word_frequency], [most_common]) *)

Definition stop_words : list string :=
  ["the"; "and"; "for"; "are"; "with"; "this"; "that"; "from"; "they";
   "been"; "have"; "were"; "said"; "each"; "which"; "their"; "time"; "will";
   "about"; "can"; "may"; "use"; "her"; "him"; "his"; "she"; "was"; "one";
   "our"; "had"; "but"; "not"; "what"; "all"; "any"; "your"; "how"; "did";
   "its"].

(** [w in stop_words] *)
Definition is_stop_word (w : string) : bool := existsb (String.eqb w) stop_words.

(** The body of the loop of [get_word_frequency] for one title. *)
Definition title_words (title : string) : list string :=
  let words := Regex.findall (str_lower title) in
  filter (fun w => negb (is_stop_word w)) words.

(** [titles.dropna()] *)
Fixpoint dropna (A : Type) (l : list (option A)) : list A :=
  match l with
  | [] => []
  | Some x :: l' => x :: dropna l'
  | None :: l' => dropna l'
  end.

(** [all_words] when the loop ends. *)
Definition all_words (titles : list (option string)) : list string :=
  flat_map title_words (dropna titles).

Definition Counter := list (string * nat).

(** [c[w] += 1]: a present key keeps its place, a new key goes last. *)
Fixpoint counter_incr (w : string) (c : Counter) : Counter :=
  match c with
  | [] => [(w, 1)]
  | (k, n) :: c' => if String.eqb k w then (k, S n) :: c' else (k, n) :: counter_incr w c'
  end.

(** [Counter(words)] *)
Definition counter_of (words : list string) : Counter :=
  fold_left (fun c w => counter_incr w c) words [].

Definition get_word_frequency (titles : list (option string)) : Counter :=
  counter_of (all_words titles).

(** One step of a stable descending sort on the count: [x] came before
    every entry of [l] in the input, so it goes before the first entry whose
    count is not larger. *)
Fixpoint insert_desc (x : string * nat) (l : list (string * nat)) : list (string * nat) :=
  match l with
  | [] => [x]
  | y :: l' => if snd y <=? snd x then x :: l else y :: insert_desc x l'
  end.

(** [sorted(items, key=itemgetter(1), reverse=True)] *)
Definition sorted_desc (items : list (string * nat)) : list (string * nat) :=
  fold_right insert_desc [] items.

(** [c.most_common(n)], that is [heapq.nlargest(n, c.items(), key=itemgetter(1))],
    which is [sorted(c.items(), key=itemgetter(1), reverse=True)[:n]]. *)
Definition most_common (n : nat) (c : Counter) : list (string * nat) :=
  firstn n (sorted_desc c).

(** [common_words = dict(word_freq.most_common(20))]: the keys are distinct,
    so the dict holds the pairs in the order of the list. *)
Definition common_words (titles : list (option string)) : list (string * nat) :=
  most_common 20 (get_word_frequency titles).

(* ================================================================= *)
(** ** Tables *)

(** [astype('int16')] on an integer: reduction to [-32768, 32767]. *)
Definition wrap16 (z : Z) : Z := ((z + 32768) mod 65536 - 32768)%Z.

Record Timestamp := mkTimestamp { ts_year : Z; ts_month : Z; ts_day : Z }.

(** A row of the table. The type of three columns changes along
    [load_data]: [publish_time] holds text, then timestamps; [year] and
    [title_word_count] do not exist ([unit]) before they are assigned. *)
Record Row (D Y W : Type) := mkRow {
  title : option string;
  publish_time : option D;
  journal : option string;
  authors : option string;
  year : Y;
  title_word_count : W
}.

Definition raw_row := Row string unit unit.
Definition dated_row := Row Timestamp unit unit.
Definition year_row := Row Timestamp Z unit.
Definition row := Row Timestamp Z Z.
Definition DataFrame := list row.

Definition notna (A : Type) (o : option A) : bool :=
  match o with
  | Some _ => true
  | None => false
  end.

(** [df.dropna(subset=['title', 'publish_time'])] *)
Definition dropna_title_publish_time (D Y W : Type) (df : list (Row D Y W)) :=
  filter (fun r => notna (title r) && notna (publish_time r)) df.

(** [df.dropna(subset=['publish_time'])] *)
Definition dropna_publish_time (D Y W : Type) (df : list (Row D Y W)) :=
  filter (fun r => notna (publish_time r)) df.

Inductive exn :=
| FileNotFoundError
| ValueError
| IntCastingNaNError
| IndexError
| AttributeError
| StreamlitAPIException.

Definition exn_eqb (a b : exn) : bool :=
  match a, b with
  | FileNotFoundError, FileNotFoundError => true
  | ValueError, ValueError => true
  | IntCastingNaNError, IntCastingNaNError => true
  | IndexError, IndexError => true
  | AttributeError, AttributeError => true
  | StreamlitAPIException, StreamlitAPIException => true
  | _, _ => false
  end.

(** [col.astype('int16')]: fails on a column with a missing value. *)
Fixpoint astype_int16 (col : list (option Z)) : exn + list Z :=
  match col with
  | [] => inr []
  | None :: _ => inl IntCastingNaNError
  | Some z :: col' =>
      match astype_int16 col' with
      | inr l => inr (wrap16 z :: l)
      | inl e => inl e
      end
  end.

(** [df['publish_time'] = col]: each row takes the value of [col] at its
    position, [NaT] where [col] has none. *)
Fixpoint assign_publish_time (df : list raw_row) (col : list (option Timestamp))
  : list dated_row :=
  match df with
  | [] => []
  | r :: df' =>
      mkRow (title r) (match col with d :: _ => d | [] => None end)
            (journal r) (authors r) tt tt
      :: assign_publish_time df' (tl col)
  end.

(** The type [read_csv] gives a column: [object] when it holds text,
    a number type otherwise (every value present reads as a number, or none
    is present). *)
Inductive dtype := ObjectDtype | NumericDtype.

(** [col.str]: the accessor exists on a column of text only. *)
Definition str_accessor (A : Type) (d : dtype) (x : A) : exn + A :=
  match d with
  | ObjectDtype => inr x
  | NumericDtype => inl AttributeError
  end.

(** [df['publish_time'].dt.year] *)
Definition dt_year (Y W : Type) (df : list (Row Timestamp Y W)) : list (option Z) :=
  map (fun r => option_map ts_year (publish_time r)) df.

(** [df['year'] = col] *)
Definition assign_year (df : list dated_row) (col : list Z) : list year_row :=
  map (fun rc : dated_row * Z =>
         let (r, y) := rc in
         mkRow (title r) (publish_time r) (journal r) (authors r) y tt)
      (combine df col).

(** [df['title'].str.split().str.len()] *)
Definition title_split_len (D Y W : Type) (df : list (Row D Y W)) : list (option Z) :=
  map (fun r => option_map (fun t => Z.of_nat (length (str_split t))) (title r)) df.

(** [df['title_word_count'] = col] *)
Definition assign_title_word_count (df : list year_row) (col : list Z) : DataFrame :=
  map (fun rc : year_row * Z =>
         let (r, n) := rc in
         mkRow (title r) (publish_time r) (journal r) (authors r) (year r) n)
      (combine df col).

(** [col >= k], [col <= k] and [m1 & m2] on columns. *)
Definition col_ge (col : list Z) (k : Z) : list bool := map (fun y => (k <=? y)%Z) col.
Definition col_le (col : list Z) (k : Z) : list bool := map (fun y => (y <=? k)%Z) col.
Definition mask_and (m1 m2 : list bool) : list bool :=
  map (fun ab : bool * bool => fst ab && snd ab) (combine m1 m2).

(** [df[mask]] *)
Fixpoint boolean_index (A : Type) (df : list A) (mask : list bool) : list A :=
  match df, mask with
  | r :: df', b :: mask' =>
      if b then r :: boolean_index df' mask' else boolean_index df' mask'
  | _, _ => []
  end.

(** [df[(df['year'] >= lo) & (df['year'] <= hi)]] *)
Definition year_between (D W : Type) (lo hi : Z) (df : list (Row D Z W)) : list (Row D Z W) :=
  let col := map (@year D Z W) df in
  boolean_index df (mask_and (col_ge col lo) (col_le col hi)).

(** [df.take(idx)]: the rows at the positions [idx]. *)
Fixpoint take (A : Type) (df : list A) (idx : list nat) : exn + list A :=
  match idx with
  | [] => inr []
  | i :: idx' =>
      match nth_error df i, take df idx' with
      | Some r, inr l => inr (r :: l)
      | None, _ => inl IndexError
      | _, inl e => inl e
      end
  end.

(** [col.min()] and [col.max()]; [None] is [nan], the result on an empty
    column. *)
Definition series_min (col : list Z) : option Z :=
  match col with
  | [] => None
  | y :: col' => Some (fold_left Z.min col' y)
  end.

Definition series_max (col : list Z) : option Z :=
  match col with
  | [] => None
  | y :: col' => Some (fold_left Z.max col' y)
  end.

(** [int(x)]: [int(nan)] raises [ValueError]. *)
Definition py_int (x : option Z) : exn + Z :=
  match x with
  | Some z => inr z
  | None => inl ValueError
  end.

(** [col.value_counts().sort_index()]: each distinct value with its number
    of occurrences, by increasing value. *)
Fixpoint count_in_order (y : Z) (l : list (Z * nat)) : list (Z * nat) :=
  match l with
  | [] => [(y, 1)]
  | (k, n) :: l' =>
      if (y <? k)%Z then (y, 1) :: l
      else if (y =? k)%Z then (k, S n) :: l'
      else (k, n) :: count_in_order y l'
  end.

Definition value_counts_sort_index (col : list Z) : list (Z * nat) :=
  fold_left (fun acc y => count_in_order y acc) col [].

(** [s.idxmax()]: the label of the first largest value; raises on an empty
    series. *)
Fixpoint idxmax_from (best : Z * nat) (l : list (Z * nat)) : Z :=
  match l with
  | [] => fst best
  | x :: l' => if snd best <? snd x then idxmax_from x l' else idxmax_from best l'
  end.

Definition idxmax (s : list (Z * nat)) : exn + Z :=
  match s with
  | [] => inl ValueError
  | x :: s' => inr (idxmax_from x s')
  end.

(** [s.max()] on a series of counts. *)
Definition counts_max (s : list (Z * nat)) : option nat :=
  match s with
  | [] => None
  | x :: s' => Some (fold_left Nat.max (map snd s') (snd x))
  end.

(** [col.nunique()]: the number of distinct values that are not missing. *)
Definition nunique (col : list (option string)) : nat :=
  length (nodup string_dec (dropna col)).

(* ================================================================= *)
(** ** The page *)

(** A Python float, as far as the page needs one: [nan], or the mean of an
    integer column given by its sum and its length. *)
Inductive pyfloat := NaN | Mean (sum : Z) (count : nat).

(** The pieces of an f-string: literal text, [{z}], [{z:,}], [{x:.1f}]. *)
Inductive fragment :=
| Lit (s : string)
| Num (z : Z)
| NumComma (z : Z)
| Float (x : pyfloat)
| Float1 (x : pyfloat).

Inductive value := VInt (z : Z) | VFloat (x : pyfloat) | VStr (t : list fragment).

Inductive figure :=
| Bar (x : list Z) (height : list nat)
| BarH (data : list (string * nat))
| BarWords (x : list string) (height : list nat)
| CloudImage (frequencies : list (string * nat)).

Definition sample_row : Type := option string * option string * option string * Z * Z.

(** What the script puts on the page, in order. Labels are given without
    their pictographs. *)
Inductive element :=
| PageConfig (page_title layout : string)
| Title (s : string)
| Markdown (t : list fragment)
| SidebarHeader (s : string)
| Slider (label : string) (min_value max_value : Z) (default : Z * Z)
| Subheader (s : string)
| Pyplot (fig : figure)
| Metric (label : string) (v : value)
| Write (t : list fragment)
| Dataframe (rows : list sample_row).

(* ================================================================= *)
(** ** State and exceptions *)

Record world := mkWorld {
  files : string -> option (list raw_row); (* the CSV files on disk, cell by cell *)
  opened : list string;                     (* paths given to [read_csv], oldest first *)
  np_random : Z;                            (* state of numpy's global generator *)
  cache : list (Z * DataFrame);             (* entries of [st.cache_data] *)
  slider_state : option (Z * Z);            (* the range the user has selected *)
  page : list element                       (* elements rendered, oldest first *)
}.

Definition with_opened (w : world) (l : list string) : world :=
  mkWorld (files w) l (np_random w) (cache w) (slider_state w) (page w).

Definition with_np_random (w : world) (g : Z) : world :=
  mkWorld (files w) (opened w) g (cache w) (slider_state w) (page w).

Definition with_cache (w : world) (c : list (Z * DataFrame)) : world :=
  mkWorld (files w) (opened w) (np_random w) c (slider_state w) (page w).

Definition with_page (w : world) (p : list element) : world :=
  mkWorld (files w) (opened w) (np_random w) (cache w) (slider_state w) p.

Definition M (A : Type) : Type := world -> (exn + A) * world.

Definition ret (A : Type) (a : A) : M A := fun w => (inr a, w).

Definition bind (A B : Type) (m : M A) (k : A -> M B) : M B :=
  fun w =>
    match m w with
    | (inr a, w') => k a w'
    | (inl e, w') => (inl e, w')
    end.

Definition raise (A : Type) (e : exn) : M A := fun w => (inl e, w).
Arguments raise {A} e.

Definition lift (A : Type) (r : exn + A) : M A := fun w => (r, w).

(** [try: body / except e: handler] *)
Definition try_except (A : Type) (body : M A) (e : exn) (handler : M A) : M A :=
  fun w =>
    match body w with
    | (inl e', w') => if exn_eqb e' e then handler w' else (inl e', w')
    | r => r
    end.

Notation "x <- m ;; k" := (bind m (fun x => k))
  (at level 61, m at next level, right associativity).
Notation "m ;;; k" := (bind m (fun _ => k))
  (at level 61, right associativity).

Definition emit (e : element) : M unit :=
  fun w => (inr tt, with_page w (page w ++ [e])).

(** [st.sidebar.slider(label, lo, hi, default)]: the range the user has
    selected, the default on the first run; Streamlit rejects a slider whose
    [min_value] is not below its [max_value]. *)
Definition st_slider (label : string) (lo hi : Z) (default : Z * Z) : M (Z * Z) :=
  if (lo <? hi)%Z
  then emit (Slider label lo hi default) ;;;
       fun w => (inr (match slider_state w with Some v => v | None => default end), w)
  else raise StreamlitAPIException.

Fixpoint cache_lookup (arg : Z) (c : list (Z * DataFrame)) : option DataFrame :=
  match c with
  | [] => None
  | (k, df) :: c' => if (k =? arg)%Z then Some df else cache_lookup arg c'
  end.

(** [@st.cache_data]: a call with an argument seen before returns the
    stored table without running the function. *)
Definition st_cache_data (f : Z -> M DataFrame) (arg : Z) : M DataFrame :=
  fun w =>
    match cache_lookup arg (cache w) with
    | Some df => (inr df, w)
    | None =>
        match f arg w with
        | (inr df, w') => (inr df, with_cache w' ((arg, df) :: cache w'))
        | r => r
        end
    end.

(* ================================================================= *)
(** ** Reference definitions *)

(** The tokens of a title read as runs of letters: the maximal runs of
    ASCII letters ([[a-zA-Z]]) of the lowercased title that have length at
    least 3, without the stop words. *)
Definition letter_run_tokens (title : string) : list string :=
  filter (fun w => negb (is_stop_word w))
         (map str (filter (fun r => 3 <=? length r)
                          (maximal_runs Char.is_alpha (chars (str_lower title))))).

(** A run is kept when it is made of ASCII letters only and has length at
    least 3. *)
Definition letters3 (r : list ascii) : bool :=
  forallb Char.is_alpha r && (3 <=? length r).

(** The tokens of a title read as runs of word characters (the class [\w]:
    letters, ASCII or not, digits, underscore): the maximal such runs of the
    lowercased title that are made of ASCII letters only and have length at
    least 3, without the stop words. *)
Definition word_run_tokens (title : string) : list string :=
  filter (fun w => negb (is_stop_word w))
         (map str (filter letters3
                          (maximal_runs Char.is_word (chars (str_lower title))))).

(** The position of the first occurrence of [w] in [l] ([length l] when
    there is none). *)
Fixpoint index_of (w : string) (l : list string) : nat :=
  match l with
  | [] => 0
  | x :: l' => if String.eqb x w then 0 else S (index_of w l')
  end.

(** [c[w]], 0 for a missing key. *)
Fixpoint counter_get (w : string) (c : Counter) : nat :=
  match c with
  | [] => 0
  | (k, n) :: c' => if String.eqb k w then n else counter_get w c'
  end.

(** Larger count first; among equal counts, the order [before]. *)
Definition desc_then (before : string * nat -> string * nat -> Prop)
  (x y : string * nat) : Prop :=
  snd y < snd x \/ (snd x = snd y /\ before x y).

(** [x] is listed before [y]: a larger count, or the same count and an
    earlier first occurrence in [words]. *)
Definition listed_before (words : list string) : string * nat -> string * nat -> Prop :=
  desc_then (fun x y => index_of (fst x) words < index_of (fst y) words).

(** The file [load_data] reads: the first of the two that exists. *)
Definition source_file (w : world) : option (list raw_row) :=
  match files w "metadata.csv" with
  | Some raw => Some raw
  | None => files w "metadata_sample.csv"
  end.

(** The paths [load_data] gives to [read_csv], in order. *)
Definition attempted (w : world) : list string :=
  match files w "metadata.csv" with
  | Some _ => ["metadata.csv"]
  | None => ["metadata.csv"; "metadata_sample.csv"]
  end.

(** A concrete instance of the library functions: a column of dates is
    parsed in the format of its first date, [YYYY-MM-DD] or [YYYY]; a column
    of digit runs only is read as numbers; the seed is the generator state, the
    permutation drawn is the identity. *)
Definition digit_value (c : ascii) : option Z :=
  if Char.is_digit c then Some (Z.of_N (Char.code c) - 48)%Z else None.

Definition seeded (seed : Z) : Z := seed.

Definition number2 (a b : ascii) : option Z :=
  match digit_value a, digit_value b with
  | Some x, Some y => Some (10 * x + y)%Z
  | _, _ => None
  end.

Definition number4 (a b c d : ascii) : option Z :=
  match number2 a b, number2 c d with
  | Some x, Some y => Some (100 * x + y)%Z
  | _, _ => None
  end.

Inductive date_format := YearMonthDay | YearOnly.

(** A date with the format it is written in (days 1 to 28, which every
    month has). *)
Definition iso_date (text : string) : option (date_format * Timestamp) :=
  match chars text with
  | [a; b; c; d] =>
      match number4 a b c d with
      | Some y => Some (YearOnly, mkTimestamp y 1 1)
      | None => None
      end
  | [a; b; c; d; s1; m1; m2; s2; d1; d2] =>
      match number4 a b c d, number2 m1 m2, number2 d1 d2 with
      | Some y, Some m, Some dd =>
          if (Char.code s1 =? 45)%N && (Char.code s2 =? 45)%N
             && (1 <=? m)%Z && (m <=? 12)%Z && (1 <=? dd)%Z && (dd <=? 28)%Z
          then Some (YearMonthDay, mkTimestamp y m dd)
          else None
      | _, _, _ => None
      end
  | _ => None
  end.

Definition date_format_eqb (f g : date_format) : bool :=
  match f, g with
  | YearMonthDay, YearMonthDay | YearOnly, YearOnly => true
  | _, _ => false
  end.

(** The format of the first date of the column, when it has one of the
    two. *)
Definition guess_format (col : list (option string)) : option date_format :=
  match dropna col with
  | text :: _ => option_map fst (iso_date text)
  | [] => None
  end.

(** With a format guessed, a date in another format is [NaT]; without,
    every date is parsed on its own. *)
Definition iso_to_datetime (col : list (option string)) : list (option Timestamp) :=
  let guess := guess_format col in
  map (fun cell =>
         match cell with
         | Some text =>
             match iso_date text, guess with
             | Some (f, ts), Some g => if date_format_eqb f g then Some ts else None
             | Some (_, ts), None => Some ts
             | None, _ => None
             end
         | None => None
         end) col.

(** A column is text when one of its values is not a run of digits. *)
Definition all_digits (s : string) : bool :=
  match chars s with
  | [] => false
  | c :: l => forallb Char.is_digit (c :: l)
  end.

Definition digits_are_numbers (col : list (option string)) : dtype :=
  if existsb (fun cell => match cell with Some s => negb (all_digits s) | None => false end)
             col
  then ObjectDtype else NumericDtype.

Definition identity_permutation (g : Z) (n : nat) : list nat := seq 0 n.

Definition next_state (g : Z) (n : nat) : Z := (g + 1)%Z.

(** Another generator: the identity in an even state, the reversal in an
    odd one. *)
Definition parity_permutation (g : Z) (n : nat) : list nat :=
  if Z.even g then seq 0 n else rev (seq 0 n).

Definition no_journals (col : list (option string)) : list (string * nat) := [].

(** The journals of a column with their counts, the most frequent first. *)
Definition journal_counts (col : list (option string)) : list (string * nat) :=
  sorted_desc (counter_of (dropna col)).

(** The disk with the two files given, each present or not, and a first
    run on it: nothing read, cached, selected or rendered yet. *)
Definition disk (main sample : option (list raw_row)) (path : string)
  : option (list raw_row) :=
  if String.eqb path "metadata.csv" then main
  else if String.eqb path "metadata_sample.csv" then sample
  else None.

Definition first_run (main sample : option (list raw_row)) : world :=
  mkWorld (disk main sample) [] 0%Z [] None [].

(** The same run once the user has moved the slider to [range]. *)
Definition rerun (main sample : option (list raw_row)) (range : Z * Z) : world :=
  mkWorld (disk main sample) [] 0%Z [] (Some range) [].

(** A title of [n] one-letter words. *)
Fixpoint many_words (n : nat) : string :=
  match n with
  | 0 => ""
  | S n' => String "a" (String " " (many_words n'))
  end.

Definition paper (t date : string) : raw_row :=
  mkRow (Some t) (Some date) (Some "Nature") (Some "Doe, J.") tt tt.

(** Four rows of a file: one to keep, one too old, one without a title, one
    whose date does not parse. *)
Definition mixed_file : list raw_row :=
  [paper "Masks and transmission" "2020-03-01";
   paper "An older study" "2018-06-01";
   mkRow None (Some "2021-01-01") (Some "Nature") None tt tt;
   paper "Undated notes" "n.d."].

Definition three_papers : list raw_row :=
  [paper "Rapid COVID-19 Testing Methods" "2020-05-01";
   paper "Vaccine trial results" "2019-12-01";
   paper "Long covid cohort study" "2021-07-15"].

(** A file whose titles are numbers, and a file without any title. *)
Definition numbered_file : list raw_row :=
  [paper "2020" "2020-03-01"; paper "12345" "2018-06-01"].

Definition untitled_file : list raw_row :=
  [mkRow None (Some "2021-01-01") (Some "Nature") None tt tt].

(** [sum(c.values())] *)
Definition counter_total (c : Counter) : nat :=
  fold_right (fun e acc => snd e + acc) 0 c.

(** The order of the labels of a series of counts. *)
Definition key_lt (a b : Z * nat) : Prop := (fst a < fst b)%Z.

(** [s[y]] on a series of counts, 0 for a missing label. *)
Fixpoint series_get (y : Z) (s : list (Z * nat)) : nat :=
  match s with
  | [] => 0
  | (k, n) :: s' => if (k =? y)%Z then n else series_get y s'
  end.

(* ================================================================= *)
(** ** The script *)

Section Script.

(** The library functions the script calls and this development does not
    look into. *)

(** [pd.to_datetime(col, errors='coerce')] on a column: the format is
    inferred from the column as a whole, so what a cell parses to depends on
    the other cells; [None] is [NaT]. *)
Variable to_datetime : list (option string) -> list (option Timestamp).

(** The type [read_csv] infers for a column from its cells; the column is
    typed as a whole, as in a file read in one chunk. *)
Variable infer_dtype : list (option string) -> dtype.

(** [np.random.RandomState(seed)]: the generator state after seeding. *)
Variable RandomState : Z -> Z.

(** [permutation g n]: the permutation of [0..n-1] drawn in state [g];
    [np_advance g n]: the state afterwards. *)
Variable permutation : Z -> nat -> list nat.
Variable np_advance : Z -> nat -> Z.

(** [col.value_counts()] on the categorical [journal] column: the journals
    with their counts, the largest first. *)
Variable journal_value_counts : list (option string) -> list (string * nat).

Hypothesis permutation_spec :
  forall g n, Permutation (permutation g n) (seq 0 n).

(** [pd.read_csv(path, usecols=use_cols, low_memory=True)]: the rows, and
    the type inferred for the title column. *)
Definition read_csv (path : string) : M (dtype * list raw_row) :=
  fun w =>
    let w' := with_opened w (opened w ++ [path]) in
    match files w path with
    | Some df => (inr (infer_dtype (map (@title _ _ _) df), df), w')
    | None => (inl FileNotFoundError, w')
    end.

(** [df['publish_time'] = pd.to_datetime(df['publish_time'], errors='coerce')] *)
Definition convert_dates (df : list raw_row) : list dated_row :=
  assign_publish_time df (to_datetime (map (@publish_time _ _ _) df)).

(** [df.sample(n, random_state=random_state)]: [n] rows without
    replacement, the first [n] positions of a permutation of the index;
    [ValueError] when [n] is negative or larger than the table.
    With [random_state=None] the global generator is used, and moves on. *)
Definition df_sample (A : Type) (df : list A) (n : Z) (random_state : option Z)
  : M (list A) :=
  if (n <? 0)%Z || (Z.of_nat (length df) <? n)%Z then raise ValueError
  else
    match random_state with
    | Some seed =>
        lift (take df (firstn (Z.to_nat n)
                              (permutation (RandomState seed) (length df))))
    | None =>
        fun w =>
          let g := np_random w in
          (take df (firstn (Z.to_nat n) (permutation g (length df))),
           with_np_random w (np_advance g (length df)))
    end.

Definition load_data (sample_size : Z) : M DataFrame :=
  frame <- try_except (read_csv "metadata.csv") FileNotFoundError
                      (read_csv "metadata_sample.csv") ;;
  let title_dtype := fst frame in
  let df := dropna_title_publish_time (snd frame) in
  let df := convert_dates df in
  let df := dropna_publish_time df in
  years <- lift (astype_int16 (dt_year df)) ;;
  let df := assign_year df years in
  let df := year_between 2019 2023 df in
  lens <- lift (str_accessor title_dtype (title_split_len df)) ;;
  counts <- lift (astype_int16 lens) ;;
  let df := assign_title_word_count df counts in
  (* [astype('category')] changes the storage of [journal], not its values *)
  if (sample_size <? Z.of_nat (length df))%Z
  then df_sample df sample_size (Some 42%Z)
  else ret df.

(** The values the two derived columns are computed from; 0 stands for a
    missing one. *)
Definition year_or_zero (r : dated_row) : Z :=
  match publish_time r with
  | Some ts => ts_year ts
  | None => 0%Z
  end.

Definition split_len_or_zero (r : year_row) : Z :=
  match title r with
  | Some t => Z.of_nat (length (str_split t))
  | None => 0%Z
  end.

(** The rows of the file that have a title and a date, with the dates
    parsed as one column. *)
Definition parsed (raw : list raw_row) : list dated_row :=
  convert_dates (dropna_title_publish_time raw).

(** What [load_data] keeps of a row with its date parsed, when it keeps
    it: the title is present, the date is not [NaT], and the year, as an
    [int16], lies in [2019, 2023]. *)
Definition keep_row (r : dated_row) : option row :=
  match title r, publish_time r with
  | Some t, Some ts =>
      let y := wrap16 (ts_year ts) in
      if (2019 <=? y)%Z && (y <=? 2023)%Z
      then Some (mkRow (Some t) (Some ts) (journal r) (authors r) y
                       (wrap16 (Z.of_nat (length (str_split t)))))
      else None
  | _, _ => None
  end.

(** The rows kept, in the order of the file. *)
Definition clean (raw : list raw_row) : DataFrame := dropna (map keep_row (parsed raw)).

(** The last step of [load_data]: sampling down to the cap. *)
Definition cap (sample_size : Z) (df : DataFrame) : M DataFrame :=
  if (sample_size <? Z.of_nat (length df))%Z
  then df_sample df sample_size (Some 42%Z)
  else ret df.

(** What [load_data] does with the rows read: on a title column of text
    the cleaning and the cap, on any other the failure of [.str]. *)
Definition finish (sample_size : Z) (raw : list raw_row) : M DataFrame :=
  match infer_dtype (map (@title _ _ _) raw) with
  | ObjectDtype => cap sample_size (clean raw)
  | NumericDtype => raise AttributeError
  end.

Definition select_sample_cols (r : row) : sample_row :=
  (title r, authors r, journal r, year r, title_word_count r).

(** The mean of an [int16] column. *)
Definition series_mean (col : list Z) : pyfloat :=
  match col with
  | [] => NaN
  | _ :: _ => Mean (fold_left Z.add col 0%Z) (length col)
  end.

(** [col.max() - col.min() + 1] on an [int16] column; [nan] when empty. *)
Definition years_covered (col : list Z) : fragment :=
  match series_max col, series_min col with
  | Some hi, Some lo => Num (wrap16 (wrap16 (hi - lo) + 1))
  | _, _ => Float NaN
  end.

(** [top_journals.plot(kind='barh', ax=ax)] then [st.pyplot(fig)]: the bar
    plot of pandas raises [IndexError] on a series without entries. *)
Definition plot_barh (s : list (string * nat)) : M unit :=
  match s with
  | [] => raise IndexError
  | _ :: _ => emit (Pyplot (BarH s))
  end.

(** The script from [df = load_data()] to its last line; the layout calls
    ([st.columns], [with col:]) place elements and are left out. *)
Definition app : M unit :=
  emit (PageConfig "CORD-19 Data Explorer" "wide") ;;;
  df <- st_cache_data load_data 50000%Z ;;
  emit (Title "CORD-19 Research Data Explorer") ;;;
  emit (Markdown [Lit "### Exploring COVID-19 Research Papers"]) ;;;
  emit (Markdown [Lit "**Dataset contains:** "; NumComma (Z.of_nat (length df));
                  Lit " research papers"]) ;;;
  emit (SidebarHeader "Filter Options") ;;;
  lo <- lift (py_int (series_min (map (@year _ _ _) df))) ;;
  hi <- lift (py_int (series_max (map (@year _ _ _) df))) ;;
  lo' <- lift (py_int (series_min (map (@year _ _ _) df))) ;;
  hi' <- lift (py_int (series_max (map (@year _ _ _) df))) ;;
  year_range <- st_slider "Select Year Range" lo hi (lo', hi') ;;
  let filtered_df := year_between (fst year_range) (snd year_range) df in
  emit (Subheader "Publications by Year") ;;;
  let yearly_counts := value_counts_sort_index (map (@year _ _ _) filtered_df) in
  emit (Pyplot (Bar (map fst yearly_counts) (map snd yearly_counts))) ;;;
  emit (Metric "Total Papers in Range" (VInt (Z.of_nat (length filtered_df)))) ;;;
  peak <- lift (idxmax yearly_counts) ;;
  emit (Metric "Peak Year" (VInt peak)) ;;;
  emit (Metric "Peak Publications"
               (match counts_max yearly_counts with
                | Some n => VInt (Z.of_nat n)
                | None => VFloat NaN
                end)) ;;;
  emit (Subheader "Top Publishing Journals") ;;;
  let top_journals := firstn 10 (journal_value_counts (map (@journal _ _ _) filtered_df)) in
  plot_barh top_journals ;;;
  emit (Subheader "Title Word Analysis") ;;;
  let word_freq := get_word_frequency (map (@title _ _ _) filtered_df) in
  let common_words := most_common 20 word_freq in
  emit (Write [Lit "**Most Common Words in Titles**"]) ;;;
  emit (Pyplot (BarWords (firstn 15 (map fst common_words))
                         (firstn 15 (map snd common_words)))) ;;;
  emit (Write [Lit "**Word Cloud**"]) ;;;
  (if 0 <? length common_words
   then emit (Pyplot (CloudImage common_words))
   else ret tt) ;;;
  emit (Subheader "Sample Data") ;;;
  emit (Write [Lit "Showing 10 random papers from "; Num (fst year_range); Lit "-";
               Num (snd year_range); Lit ":"]) ;;;
  shown <- df_sample (map select_sample_cols filtered_df)
                     (Z.min 10 (Z.of_nat (length filtered_df))) None ;;
  emit (Dataframe shown) ;;;
  emit (Subheader "Summary Statistics") ;;;
  emit (Metric "Total Papers" (VStr [NumComma (Z.of_nat (length filtered_df))])) ;;;
  emit (Metric "Unique Journals"
               (VInt (Z.of_nat (nunique (map (@journal _ _ _) filtered_df))))) ;;;
  let avg_words := series_mean (map (@title_word_count _ _ _) filtered_df) in
  emit (Metric "Avg Title Length" (VStr [Float1 avg_words; Lit " words"])) ;;;
  emit (Metric "Years Covered"
               (VStr [years_covered (map (@year _ _ _) filtered_df); Lit " years"])) ;;;
  emit (Markdown [Lit "---"]) ;;;
  emit (Markdown [Lit "**Data Source:** CORD-19 Dataset from Kaggle"]) ;;;
  emit (Markdown [Lit "**Built with:** Streamlit, Pandas, Matplotlib"]).

Example title_words_covid :
  title_words "The New COVID-19 Study: Rapid Results!"
  = ["new"; "covid"; "study"; "rapid"; "results"].
Proof. reflexivity. Qed.

Example title_words_digit_adjacent :
  title_words "covid19 study" = ["study"].
Proof. reflexivity. Qed.

Example common_words_cat_dog :
  common_words [Some "cat dog cat"; Some "dog bird"]
  = [("cat", 2); ("dog", 2); ("bird", 1)].
Proof. reflexivity. Qed.


(* ================================================================= *)
(** ** The regular expression finds the letter-only word runs *)

Lemma alpha_is_word c : Char.is_alpha c = true -> Char.is_word c = true.
Proof. unfold Char.is_word. intros ->. reflexivity. Qed.

Lemma last_cons (A : Type) (a d : A) (l : list A) : last (a :: l) d = last l a.
Proof.
  revert a d. induction l as [|b l IH]; intros a d; [reflexivity|].
  change (last (a :: b :: l) d) with (last (b :: l) d).
  rewrite !IH. reflexivity.
Qed.

Import Regex.

Lemma last_char_cons p c u : last_char p (c :: u) = last_char (Some c) u.
Proof. unfold last_char. simpl map. apply last_cons. Qed.

Lemma last_char_word p u :
  u <> [] -> forallb Char.is_word u = true -> is_word_at (last_char p u) = true.
Proof.
  revert p. induction u as [|c u IH]; intros p Hne Hall; [congruence|].
  rewrite last_char_cons. simpl in Hall. apply andb_prop in Hall as [Hc Hu].
  destruct u as [|d u]; [exact Hc|].
  apply IH; [discriminate|exact Hu].
Qed.

Lemma forallb_alpha_word u :
  forallb Char.is_alpha u = true -> forallb Char.is_word u = true.
Proof.
  rewrite !forallb_forall. intros H x Hx. apply alpha_is_word, H, Hx.
Qed.

Lemma span_alpha_spec s run rest :
  span_alpha s = (run, rest) ->
  s = run ++ rest /\ forallb Char.is_alpha run = true
  /\ match rest with [] => True | d :: _ => Char.is_alpha d = false end.
Proof.
  revert run rest. induction s as [|c s IH]; intros run rest H; simpl in H.
  - inversion H. repeat split.
  - destruct (Char.is_alpha c) eqn:Hc.
    + destruct (span_alpha s) as [run' rest'] eqn:Hs. inversion H; subst.
      destruct (IH _ _ eq_refl) as (-> & Ha & Hr).
      repeat split; [simpl; rewrite Hc; exact Ha | exact Hr].
    + inversion H; subst. repeat split. exact Hc.
Qed.

Lemma try_lengths_short k run rest : k < 3 -> try_lengths k run rest = None.
Proof.
  intros Hk. destruct k as [|[|[|k]]]; try reflexivity. lia.
Qed.

(** No shorter or equal prefix of a run of letters followed by a word
    character ends at a word boundary. *)
Lemma try_lengths_inside k run rest :
  k <= length run ->
  forallb Char.is_word run = true ->
  is_word_at (hd_error rest) = true ->
  try_lengths k run rest = None.
Proof.
  intros Hk Hrun Hrest. induction k as [|k IH]; [reflexivity|].
  cbn [try_lengths]. destruct (S k <? 3); [reflexivity|].
  assert (Htok : is_word_at (last_char None (firstn (S k) run)) = true).
  { apply last_char_word.
    - destruct run; simpl in *; [lia|discriminate].
    - rewrite forallb_forall in *. intros x Hx. apply Hrun.
      rewrite <- (firstn_skipn (S k) run). apply in_or_app. left. exact Hx. }
  assert (Hafter : is_word_at (hd_error (skipn (S k) run ++ rest)) = true).
  { destruct (skipn (S k) run) as [|d l] eqn:Hsk; [exact Hrest|].
    simpl. rewrite forallb_forall in Hrun. apply Hrun.
    rewrite <- (firstn_skipn (S k) run), Hsk. apply in_or_app. right. left.
    reflexivity. }
  unfold word_boundary. rewrite Htok, Hafter. simpl. apply IH. lia.
Qed.

Lemma try_lengths_whole run rest :
  3 <= length run ->
  forallb Char.is_word run = true ->
  is_word_at (hd_error rest) = false ->
  try_lengths (length run) run rest = Some run.
Proof.
  intros Hlen Hrun Hrest.
  destruct (length run) as [|k] eqn:Hk; [lia|].
  cbn [try_lengths]. destruct (S k <? 3) eqn:Hlt.
  { apply Nat.ltb_lt in Hlt. lia. }
  rewrite <- Hk, firstn_all, skipn_all, app_nil_l.
  unfold word_boundary. rewrite Hrest, last_char_word; [reflexivity| |exact Hrun].
  destruct run; [simpl in Hk; lia|discriminate].
Qed.

(** A run of characters satisfying [p] that ends before a character that
    does not splits in one way only. *)
Lemma run_unique (p : ascii -> bool) w rest a b :
  forallb p w = true -> holds_at p (hd_error rest) = false ->
  forallb p a = true -> holds_at p (hd_error b) = false ->
  w ++ rest = a ++ b -> a = w /\ b = rest.
Proof.
  revert a. induction w as [|c w IH]; intros a Hw Hrest Ha Hb Heq.
  - destruct a as [|d a]; [split; [reflexivity|symmetry; exact Heq]|].
    simpl in Heq. subst rest. simpl in Hrest. simpl in Ha.
    apply andb_prop in Ha as [Hd _]. congruence.
  - simpl in Hw. apply andb_prop in Hw as [Hc Hw].
    destruct a as [|d a].
    + simpl in Heq. subst b. simpl in Hb. congruence.
    + simpl in Heq. inversion Heq; subst d. simpl in Ha.
      apply andb_prop in Ha as [_ Ha].
      destruct (IH a Hw Hrest Ha Hb H1) as [-> ->]. split; reflexivity.
Qed.

Lemma not_word_not_alpha o : is_word_at o = false -> holds_at Char.is_alpha o = false.
Proof.
  destruct o as [c|]; [|reflexivity]. simpl. intros H.
  destruct (Char.is_alpha c) eqn:Hc; [|reflexivity].
  apply alpha_is_word in Hc. congruence.
Qed.

(** A match attempted at the start of a maximal run of word characters
    takes the whole run, when it is made of at least 3 letters, and fails
    otherwise. *)
Lemma match_here_run p w rest :
  w <> [] -> forallb Char.is_word w = true ->
  is_word_at p = false -> is_word_at (hd_error rest) = false ->
  match_here p (w ++ rest) = if letters3 w then Some w else None.
Proof.
  intros Hne Hw Hp Hrest. unfold match_here.
  assert (Hb : word_boundary p (hd_error (w ++ rest)) = true).
  { destruct w as [|c w]; [congruence|]. simpl in Hw |- *.
    apply andb_prop in Hw as [Hc _]. unfold word_boundary. simpl.
    rewrite Hp, Hc. reflexivity. }
  rewrite Hb. destruct (span_alpha (w ++ rest)) as [a b] eqn:Hsp.
  destruct (span_alpha_spec _ Hsp) as (Heq & Ha & Hhd).
  assert (Hhd' : holds_at Char.is_alpha (hd_error b) = false)
    by (destruct b; [reflexivity|exact Hhd]).
  destruct (is_word_at (hd_error b)) eqn:Hwb.
  - rewrite try_lengths_inside;
      [|apply Nat.le_refl|apply forallb_alpha_word, Ha|exact Hwb].
    unfold letters3. destruct (forallb Char.is_alpha w) eqn:Hall; [|reflexivity].
    destruct (run_unique Char.is_alpha w rest a b Hall
                (not_word_not_alpha _ Hrest) Ha Hhd' Heq) as [_ ->].
    congruence.
  - destruct (run_unique Char.is_word w rest a b Hw Hrest
                (forallb_alpha_word _ Ha) Hwb Heq) as [-> ->].
    unfold letters3. rewrite Ha. cbn [andb].
    destruct (3 <=? length w) eqn:Hlen.
    + apply Nat.leb_le in Hlen. apply try_lengths_whole; assumption.
    + apply Nat.leb_gt in Hlen. apply try_lengths_short. exact Hlen.
Qed.

(** No match starts at a character that is not a letter. *)
Lemma match_here_not_alpha p s :
  holds_at Char.is_alpha (hd_error s) = false -> match_here p s = None.
Proof.
  intros H. unfold match_here. destruct (word_boundary p (hd_error s)); [|reflexivity].
  destruct s as [|c s]; [reflexivity|]. simpl in H |- *. rewrite H. reflexivity.
Qed.

(** The characters of a match are passed over. *)
Lemma scan_skip u p rest :
  scan p (length u) (u ++ rest) = scan (last_char p u) 0 rest.
Proof.
  revert p. induction u as [|c u IH]; intros p.
  - destruct rest; reflexivity.
  - rewrite last_char_cons. simpl. apply IH.
Qed.

(** No match starts inside a run of word characters. *)
Lemma scan_inside u p rest :
  is_word_at p = true -> forallb Char.is_word u = true ->
  scan p 0 (u ++ rest) = scan (last_char p u) 0 rest.
Proof.
  revert p. induction u as [|c u IH]; intros p Hp Hu; [reflexivity|].
  simpl in Hu. apply andb_prop in Hu as [Hc Hu].
  rewrite last_char_cons. change ((c :: u) ++ rest) with (c :: (u ++ rest)).
  cbn [scan]. unfold match_here at 1. unfold word_boundary.
  cbn [hd_error is_word_at]. rewrite Hp, Hc. cbn [xorb].
  apply IH; [exact Hc|exact Hu].
Qed.

Lemma scan_run p w rest :
  w <> [] -> forallb Char.is_word w = true ->
  is_word_at p = false -> is_word_at (hd_error rest) = false ->
  scan p 0 (w ++ rest) = filter letters3 [w] ++ scan (last_char p w) 0 rest.
Proof.
  intros Hne Hw Hp Hrest.
  pose proof (match_here_run p rest Hne Hw Hp Hrest) as Hm.
  destruct w as [|c w]; [congruence|]. rewrite last_char_cons.
  change ((c :: w) ++ rest) with (c :: (w ++ rest)) in *.
  cbn [scan filter]. rewrite Hm.
  simpl in Hw. apply andb_prop in Hw as [Hc Hw'].
  destruct (letters3 (c :: w)).
  - change (length (c :: w) - 1) with (length w - 0). rewrite Nat.sub_0_r.
    rewrite scan_skip. reflexivity.
  - cbn [app]. apply scan_inside; assumption.
Qed.

Lemma scan_runs s cur p :
  forallb Char.is_word cur = true -> is_word_at p = false ->
  scan p 0 (cur ++ s) = filter letters3 (runs Char.is_word cur s).
Proof.
  revert cur p. induction s as [|c s IH]; intros cur p Hcur Hp.
  - cbn [runs]. destruct cur as [|d cur]; [reflexivity|].
    rewrite scan_run; [|discriminate|exact Hcur|exact Hp|reflexivity].
    cbn [scan flush]. apply app_nil_r.
  - cbn [runs]. destruct (Char.is_word c) eqn:Hc.
    + replace (cur ++ c :: s) with ((cur ++ [c]) ++ s)
        by (rewrite <- app_assoc; reflexivity).
      apply IH; [|exact Hp].
      rewrite forallb_app, Hcur. simpl. rewrite Hc. reflexivity.
    + rewrite filter_app.
      assert (Hstep : forall q, scan q 0 (c :: s) = filter letters3 (runs Char.is_word [] s)).
      { intros q. cbn [scan]. rewrite match_here_not_alpha.
        - apply (IH [] (Some c)); [reflexivity|exact Hc].
        - apply (not_word_not_alpha (Some c)). exact Hc. }
      destruct cur as [|d cur]; [apply Hstep|].
      rewrite scan_run; [|discriminate|exact Hcur|exact Hp|exact Hc].
      rewrite Hstep. reflexivity.
Qed.

(** [re.findall] with the pattern of the script returns the maximal runs of
    word characters that are made of letters only and have length at least
    3. *)
Lemma findall_chars_runs s :
  findall_chars s = filter letters3 (maximal_runs Char.is_word s).
Proof. apply (scan_runs s [] None); reflexivity. Qed.


Lemma lower_keeps_classes c :
  Char.is_word c = Char.is_alpha c ->
  Char.is_word (Char.lower c) = Char.is_alpha (Char.lower c).
Proof.
  destruct c as [[] [] [] [] [] [] [] []]; vm_compute; intros H;
    first [reflexivity | discriminate H].
Qed.

Lemma runs_ext (p q : ascii -> bool) cur s :
  (forall c, In c s -> p c = q c) -> runs p cur s = runs q cur s.
Proof.
  revert cur. induction s as [|c s IH]; intros cur H; [reflexivity|].
  simpl. rewrite (H c (or_introl eq_refl)).
  rewrite !IH by (intros x Hx; apply H; right; exact Hx). reflexivity.
Qed.

Lemma runs_forall (p : ascii -> bool) cur s :
  forallb p cur = true -> Forall (fun r => forallb p r = true) (runs p cur s).
Proof.
  revert cur. induction s as [|c s IH]; intros cur Hcur; simpl.
  - destruct cur; constructor; [exact Hcur|constructor].
  - destruct (p c) eqn:Hc.
    + apply IH. rewrite forallb_app, Hcur. simpl. rewrite Hc. reflexivity.
    + apply Forall_app. split; [|apply IH; reflexivity].
      destruct cur; constructor; [exact Hcur|constructor].
Qed.

(** C1 (amended): the tokens of a title are the maximal runs of word
    characters (the class [\w]: letters, ASCII or not, digits, underscore) of
    the lowercased title that are made of ASCII letters ([[a-zA-Z]]) only and
    have length at least 3, without the stop words: a run of ASCII letters
    next to a digit, an underscore or a letter that is not ASCII is dropped
    whole. For a title in which every word character is an ASCII letter (no
    digit, no underscore, no letter outside [[a-zA-Z]]) they are the maximal
    runs of ASCII letters of length at least 3, without the stop words. The
    title "The New COVID-19 Study: Rapid Results!" gives new, covid, study,
    rapid, results; "caf" followed by e-acute (code point 233) gives no
    token. *)
Theorem title_words_word_runs :
  (forall title, title_words title = word_run_tokens title)
  /\ (forall title,
         (forall c, In c (chars title) -> Char.is_word c = Char.is_alpha c) ->
         title_words title = letter_run_tokens title)
  /\ title_words "The New COVID-19 Study: Rapid Results!"
     = ["new"; "covid"; "study"; "rapid"; "results"]
  /\ title_words (String "c" (String "a" (String "f" (String "233"%char ""))))
     = [].
Proof.
  assert (Hruns : forall title, title_words title = word_run_tokens title).
  { intros title. unfold title_words, word_run_tokens, findall.
    rewrite findall_chars_runs. reflexivity. }
  split; [exact Hruns|split; [|split; reflexivity]].
  intros title Hletters. rewrite Hruns. unfold word_run_tokens, letter_run_tokens.
  unfold maximal_runs, str_lower, chars, str in *.
  rewrite list_ascii_of_string_of_list_ascii.
  rewrite (@runs_ext Char.is_word Char.is_alpha).
  - do 2 f_equal. apply filter_ext_in. intros r Hr. unfold letters3.
    pose proof (runs_forall Char.is_alpha []
                  (map Char.lower (list_ascii_of_string title)) eq_refl) as Hall.
    rewrite Forall_forall in Hall. rewrite (Hall r Hr). reflexivity.
  - intros c Hc. apply in_map_iff in Hc as (c0 & <- & Hc0).
    apply lower_keeps_classes, Hletters, Hc0.
Qed.

(** A title whose word characters are ASCII letters: its tokens are its
    runs of letters. *)
Lemma title_words_word_runs_witness :
  title_words "Rapid results: a new study" = ["rapid"; "results"; "new"; "study"]
  /\ title_words "Rapid results: a new study"
     = letter_run_tokens "Rapid results: a new study".
Proof.
  split; [reflexivity|].
  apply (proj1 (proj2 title_words_word_runs)).
  apply Forall_forall. vm_compute. repeat constructor.
Defined.

(** C1 as stated fails: in "covid19 study" the run of letters "covid" has
    length 5 and is not a token. *)
Lemma title_words_not_letter_runs :
  title_words "covid19 study" = ["study"]
  /\ letter_run_tokens "covid19 study" = ["covid"; "study"]
  /\ ~ (forall title, title_words title = letter_run_tokens title).
Proof.
  split; [reflexivity|]. split; [reflexivity|].
  intros H. specialize (H "covid19 study"). vm_compute in H. discriminate H.
Qed.

(* ================================================================= *)
(** ** Counting and ordering *)

Lemma StronglySorted_weaken (A : Type) (R R' : A -> A -> Prop) l :
  StronglySorted R l ->
  (forall a b, In a l -> In b l -> R a b -> R' a b) ->
  StronglySorted R' l.
Proof.
  induction 1 as [|a l Hs IH Hf]; intros Himp; constructor.
  - apply IH. intros x y Hx Hy. apply Himp; right; assumption.
  - rewrite Forall_forall in *. intros b Hb.
    apply Himp; [left; reflexivity|right; exact Hb|apply Hf, Hb].
Qed.

Lemma StronglySorted_snoc (A : Type) (R : A -> A -> Prop) l x :
  StronglySorted R l -> Forall (fun a => R a x) l -> StronglySorted R (l ++ [x]).
Proof.
  induction 1 as [|a l Hs IH Hf]; intros Hall; simpl.
  - repeat constructor.
  - inversion Hall; subst. constructor; [apply IH; assumption|].
    apply Forall_app. split; [exact Hf|constructor; [assumption|constructor]].
Qed.

Lemma StronglySorted_map (A B : Type) (f : A -> B) (R : B -> B -> Prop) l :
  StronglySorted R (map f l) -> StronglySorted (fun x y => R (f x) (f y)) l.
Proof.
  induction l as [|a l IH]; intros H; [constructor|].
  simpl in H. inversion H; subst. constructor; [apply IH; assumption|].
  rewrite Forall_forall in *. intros x Hx. apply H3. apply in_map. exact Hx.
Qed.

Lemma StronglySorted_firstn (A : Type) (R : A -> A -> Prop) n l :
  StronglySorted R l -> StronglySorted R (firstn n l).
Proof.
  intros H. revert n. induction H as [|a l Hs IH Hf]; intros n.
  - rewrite firstn_nil. constructor.
  - destruct n as [|n]; [constructor|]. simpl. constructor; [apply IH|].
    rewrite Forall_forall in *. intros x Hx. apply Hf.
    rewrite <- (firstn_skipn n l). apply in_or_app. left. exact Hx.
Qed.

Lemma StronglySorted_NoDup (A : Type) (R : A -> A -> Prop) l :
  (forall a, ~ R a a) -> StronglySorted R l -> NoDup l.
Proof.
  intros Hirr. induction 1 as [|a l Hs IH Hf]; constructor; [|exact IH].
  intros Hin. rewrite Forall_forall in Hf. exact (Hirr a (Hf a Hin)).
Qed.

Lemma index_of_app w l r : In w l -> index_of w (l ++ r) = index_of w l.
Proof.
  induction l as [|x l IH]; intros Hin; [destruct Hin|].
  simpl. destruct (String.eqb_spec x w) as [_|Hne]; [reflexivity|].
  f_equal. apply IH. destruct Hin; [congruence|assumption].
Qed.

Lemma index_of_lt w l : In w l -> index_of w l < length l.
Proof.
  induction l as [|x l IH]; intros Hin; [destruct Hin|].
  simpl. destruct (String.eqb_spec x w) as [_|Hne]; [lia|].
  apply -> Nat.succ_lt_mono. apply IH. destruct Hin; [congruence|assumption].
Qed.

Lemma index_of_absent w l r : ~ In w l -> index_of w (l ++ w :: r) = length l.
Proof.
  induction l as [|x l IH]; intros Hnin; simpl.
  - rewrite String.eqb_refl. reflexivity.
  - destruct (String.eqb_spec x w) as [->|Hne].
    + exfalso. apply Hnin. left. reflexivity.
    + f_equal. apply IH. intros Hin. apply Hnin. right. exact Hin.
Qed.

Lemma counter_incr_present w c :
  In w (map fst c) -> map fst (counter_incr w c) = map fst c.
Proof.
  induction c as [|[k n] c IH]; intros Hin; [destruct Hin|].
  simpl. destruct (String.eqb_spec k w) as [_|Hne]; [reflexivity|].
  simpl. f_equal. apply IH. destruct Hin as [Hk|Hin]; [simpl in Hk; congruence|exact Hin].
Qed.

Lemma counter_incr_absent w c :
  ~ In w (map fst c) -> counter_incr w c = c ++ [(w, 1)].
Proof.
  induction c as [|[k n] c IH]; intros Hnin; [reflexivity|].
  simpl. destruct (String.eqb_spec k w) as [->|Hne].
  - exfalso. apply Hnin. left. reflexivity.
  - f_equal. apply IH. intros Hin. apply Hnin. right. exact Hin.
Qed.

Lemma counter_get_incr k w c :
  counter_get k (counter_incr w c)
  = if String.eqb w k then S (counter_get k c) else counter_get k c.
Proof.
  induction c as [|[x n] c IH]; simpl.
  - destruct (String.eqb w k); reflexivity.
  - destruct (String.eqb_spec x w) as [->|Hxw]; simpl.
    + destruct (String.eqb w k); reflexivity.
    + destruct (String.eqb_spec x k) as [->|Hxk].
      * destruct (String.eqb_spec w k); [congruence|reflexivity].
      * exact IH.
Qed.

Lemma counter_of_snoc ws w : counter_of (ws ++ [w]) = counter_incr w (counter_of ws).
Proof. unfold counter_of. rewrite fold_left_app. reflexivity. Qed.

Lemma counter_get_of k ws : counter_get k (counter_of ws) = count_occ string_dec ws k.
Proof.
  induction ws as [|w ws IH] using rev_ind; [reflexivity|].
  rewrite counter_of_snoc, counter_get_incr, IH, count_occ_app. simpl.
  destruct (String.eqb_spec w k) as [->|Hne].
  - destruct (string_dec k k); [lia|congruence].
  - destruct (string_dec w k); [congruence|lia].
Qed.

(** The keys of a counter are the words counted, in the order of their
    first occurrence. *)
Lemma counter_of_keys ws :
  (forall k, In k (map fst (counter_of ws)) <-> In k ws)
  /\ StronglySorted (fun a b => index_of a ws < index_of b ws) (map fst (counter_of ws)).
Proof.
  induction ws as [|w ws [IHk IHs]] using rev_ind.
  - split; [intros k; reflexivity|constructor].
  - rewrite counter_of_snoc.
    destruct (in_dec string_dec w (map fst (counter_of ws))) as [Hin|Hnin].
    + rewrite (counter_incr_present _ _ Hin). split.
      * intros k. rewrite IHk, in_app_iff. simpl. apply IHk in Hin.
        split; [intros H; left; exact H|intros [H|[<-|[]]]; assumption].
      * apply StronglySorted_weaken with (1 := IHs). intros a b Ha Hb Hab.
        apply IHk in Ha, Hb. rewrite !index_of_app by assumption. exact Hab.
    + rewrite (counter_incr_absent _ _ Hnin), map_app. simpl. split.
      * intros k. rewrite !in_app_iff, IHk. reflexivity.
      * apply StronglySorted_snoc.
        -- apply StronglySorted_weaken with (1 := IHs). intros a b Ha Hb Hab.
           apply IHk in Ha, Hb. rewrite !index_of_app by assumption. exact Hab.
        -- rewrite Forall_forall. intros a Ha. apply IHk in Ha.
           rewrite index_of_app by assumption.
           rewrite index_of_absent by (rewrite <- IHk; exact Hnin).
           apply index_of_lt. exact Ha.
Qed.

Lemma counter_get_In k n c :
  NoDup (map fst c) -> In (k, n) c -> counter_get k c = n.
Proof.
  induction c as [|[x m] c IH]; intros Hnd Hin; [destruct Hin|].
  simpl in Hnd. inversion Hnd; subst. simpl.
  destruct Hin as [Heq|Hin].
  - inversion Heq; subst. rewrite String.eqb_refl. reflexivity.
  - destruct (String.eqb_spec x k) as [->|Hne]; [|apply IH; assumption].
    exfalso. apply H1. change k with (fst (k, n)). apply in_map. exact Hin.
Qed.

Lemma insert_desc_perm x l : Permutation (insert_desc x l) (x :: l).
Proof.
  induction l as [|y l IH]; simpl; [reflexivity|].
  destruct (snd y <=? snd x); [reflexivity|].
  rewrite IH. apply perm_swap.
Qed.

Lemma sorted_desc_perm l : Permutation (sorted_desc l) l.
Proof.
  induction l as [|x l IH]; simpl; [reflexivity|].
  rewrite insert_desc_perm. constructor. exact IH.
Qed.

Section Stable.

Variable before : string * nat -> string * nat -> Prop.

Lemma insert_desc_sorted x l :
  StronglySorted (desc_then before) l -> Forall (before x) l ->
  StronglySorted (desc_then before) (insert_desc x l).
Proof.
  induction 1 as [|y l Hs IH Hf]; intros Hx; simpl.
  - repeat constructor.
  - inversion Hx; subst. destruct (snd y <=? snd x) eqn:Hle.
    + apply Nat.leb_le in Hle. constructor; [constructor; assumption|].
      constructor.
      * unfold desc_then. destruct (Nat.eq_dec (snd x) (snd y)); [right|left]; [auto|lia].
      * rewrite Forall_forall in *. intros z Hz.
        assert (Hyz : snd z <= snd y) by (destruct (Hf z Hz) as [?|[? _]]; lia).
        unfold desc_then.
        destruct (Nat.eq_dec (snd x) (snd z)); [right; auto|left; lia].
    + apply Nat.leb_gt in Hle. constructor; [apply IH; assumption|].
      rewrite (insert_desc_perm x l). constructor; [left; exact Hle|exact Hf].
Qed.

Lemma sorted_desc_stable l :
  StronglySorted before l -> StronglySorted (desc_then before) (sorted_desc l).
Proof.
  induction 1 as [|x l Hs IH Hf]; simpl; [constructor|].
  apply insert_desc_sorted; [exact IH|].
  rewrite sorted_desc_perm. exact Hf.
Qed.

End Stable.


Lemma most_common_In n c e : In e (most_common n c) -> In e c.
Proof.
  intros H. apply (Permutation_in _ (sorted_desc_perm c)).
  unfold most_common in H. rewrite <- (firstn_skipn n (sorted_desc c)).
  apply in_or_app. left. exact H.
Qed.

(** C2: for every sequence of titles the entries of the result are listed
    by decreasing count and, among equal counts, in the order of the first
    occurrence of the words in the titles; each count is the number of
    occurrences of its word; the titles "cat dog cat", "dog bird" give
    cat 2, dog 2, bird 1 in this order. *)
Theorem common_words_order :
  (forall titles n,
      StronglySorted (listed_before (all_words titles))
                     (most_common n (get_word_frequency titles)))
  /\ (forall titles n,
         Forall (fun e => snd e = count_occ string_dec (all_words titles) (fst e))
                (most_common n (get_word_frequency titles)))
  /\ common_words [Some "cat dog cat"; Some "dog bird"]
     = [("cat", 2); ("dog", 2); ("bird", 1)].
Proof.
  split; [|split; [|reflexivity]]; intros titles n; unfold get_word_frequency.
  - apply StronglySorted_firstn. apply sorted_desc_stable.
    apply (@StronglySorted_map _ _ fst
             (fun a b => index_of a (all_words titles) < index_of b (all_words titles))).
    apply counter_of_keys.
  - rewrite Forall_forall. intros [w k] Hin. apply most_common_In in Hin.
    simpl. rewrite <- counter_get_of. symmetry. apply counter_get_In; [|exact Hin].
    apply StronglySorted_NoDup
      with (R := fun a b => index_of a (all_words titles) < index_of b (all_words titles)).
    + intros a. apply Nat.lt_irrefl.
    + apply counter_of_keys.
Qed.

Lemma sorted_desc_head_max c e l :
  sorted_desc c = e :: l -> In e c /\ Forall (fun x => snd x <= snd e) c.
Proof.
  intros Heq. pose proof (sorted_desc_perm c) as Hp. rewrite Heq in Hp. split.
  - apply (Permutation_in _ Hp). left. reflexivity.
  - assert (Hs : StronglySorted (desc_then (fun _ _ => True)) (sorted_desc c)).
    { apply sorted_desc_stable. clear. induction c; constructor; auto.
      rewrite Forall_forall. auto. }
    rewrite Heq in Hs. inversion Hs; subst.
    apply (Permutation_Forall Hp). constructor; [lia|].
    rewrite Forall_forall in *. intros x Hx.
    destruct (H2 x Hx) as [?|[? _]]; lia.
Qed.

(** C7: the result of [most_common n] has at most [n] entries (exactly
    [min n (length c)]); the top 1 of a mapping of 5 words is exactly one
    entry, an entry of the mapping whose count no other count exceeds. *)
Theorem most_common_truncates :
  (forall n c, length (most_common n c) <= n)
  /\ (forall n c, length (most_common n c) = Nat.min n (length c))
  /\ (forall c, length c = 5 ->
        exists w k, most_common 1 c = [(w, k)] /\ In (w, k) c
                    /\ Forall (fun e => snd e <= k) c).
Proof.
  assert (Hlen : forall n c, length (most_common n c) = Nat.min n (length c)).
  { intros n c. unfold most_common.
    rewrite length_firstn, (Permutation_length (sorted_desc_perm c)). reflexivity. }
  split; [|split; [exact Hlen|]].
  - intros n c. rewrite Hlen. apply Nat.le_min_l.
  - intros c Hc. unfold most_common.
    destruct (sorted_desc c) as [|[w k] l] eqn:Hs.
    + pose proof (Permutation_length (sorted_desc_perm c)) as Hp.
      rewrite Hs, Hc in Hp. discriminate Hp.
    + exists w, k. destruct (sorted_desc_head_max c Hs) as [Hin Hmax].
      repeat split; [exact Hin|exact Hmax].
Qed.

(** A mapping of 5 words; the top 1 is the entry of the largest count. *)
Lemma most_common_truncates_witness :
  let c := [("virus", 2); ("covid", 7); ("study", 1); ("health", 7); ("care", 3)] in
  length c = 5
  /\ exists w k, most_common 1 c = [(w, k)] /\ In (w, k) c
                 /\ Forall (fun e => snd e <= k) c.
Proof.
  intros c. split; [reflexivity|].
  exact (proj2 (proj2 most_common_truncates) c eq_refl).
Defined.


(* ================================================================= *)
(** ** The loader *)

Lemma year_between_cons (D W : Type) lo hi (r : Row D Z W) df :
  year_between lo hi (r :: df)
  = if ((lo <=? year r) && (year r <=? hi))%Z
    then r :: year_between lo hi df
    else year_between lo hi df.
Proof. reflexivity. Qed.

Lemma year_between_filter (D W : Type) lo hi (df : list (Row D Z W)) :
  year_between lo hi df
  = filter (fun r => ((lo <=? year r) && (year r <=? hi))%Z) df.
Proof.
  induction df as [|r df IH]; [reflexivity|].
  rewrite year_between_cons. simpl. rewrite IH. reflexivity.
Qed.

Lemma astype_int16_map (A : Type) (f : A -> option Z) (g : A -> Z) l :
  Forall (fun a => f a = Some (g a)) l ->
  astype_int16 (map f l) = inr (map (fun a => wrap16 (g a)) l).
Proof.
  induction 1 as [|a l Ha _ IH]; [reflexivity|].
  simpl. rewrite Ha, IH. reflexivity.
Qed.

Lemma combine_map_self (A B : Type) (h : A -> B) l :
  combine l (map h l) = map (fun x => (x, h x)) l.
Proof. induction l as [|a l IH]; [reflexivity|]. simpl. rewrite IH. reflexivity. Qed.

Lemma dt_year_astype (df : list dated_row) :
  astype_int16 (dt_year (dropna_publish_time df))
  = inr (map (fun r => wrap16 (year_or_zero r)) (dropna_publish_time df)).
Proof.
  apply astype_int16_map. rewrite Forall_forall. intros r Hr.
  apply filter_In in Hr as [_ Hr]. unfold year_or_zero.
  destruct (publish_time r); [reflexivity|discriminate Hr].
Qed.

Lemma title_split_len_astype (df : list year_row) :
  Forall (fun r => title r <> None) df ->
  astype_int16 (title_split_len df)
  = inr (map (fun r => wrap16 (split_len_or_zero r)) df).
Proof.
  intros H. apply astype_int16_map. rewrite Forall_forall in *. intros r Hr.
  specialize (H r Hr). unfold split_len_or_zero.
  destruct (title r); [reflexivity|congruence].
Qed.

Lemma assign_year_map (df : list dated_row) (h : dated_row -> Z) :
  assign_year df (map h df)
  = map (fun r => mkRow (title r) (publish_time r) (journal r) (authors r) (h r) tt) df.
Proof. unfold assign_year. rewrite combine_map_self, map_map. reflexivity. Qed.

Lemma assign_title_word_count_map (df : list year_row) (h : year_row -> Z) :
  assign_title_word_count df (map h df)
  = map (fun r => mkRow (title r) (publish_time r) (journal r) (authors r) (year r) (h r)) df.
Proof.
  unfold assign_title_word_count. rewrite combine_map_self, map_map. reflexivity.
Qed.

Lemma assign_publish_time_titles df col :
  Forall (fun r : raw_row => title r <> None) df ->
  Forall (fun r : dated_row => title r <> None) (assign_publish_time df col).
Proof.
  intros H. revert col. induction H as [|r df Hr _ IH]; intros col; simpl;
    constructor; [exact Hr|apply IH].
Qed.

Lemma parsed_titles raw : Forall (fun r : dated_row => title r <> None) (parsed raw).
Proof.
  unfold parsed, convert_dates. apply assign_publish_time_titles.
  rewrite Forall_forall. intros r Hr. apply filter_In in Hr as [_ Hr].
  destruct (title r); [discriminate|discriminate Hr].
Qed.

(** The column operations of [load_data] never meet a missing value, and
    what they build is the cleaning of the rows with their date parsed. *)
Lemma load_columns raw :
  let df := dropna_publish_time (convert_dates (dropna_title_publish_time raw)) in
  exists years,
    astype_int16 (dt_year df) = inr years
    /\ let df' := year_between 2019 2023 (assign_year df years) in
       exists counts,
         astype_int16 (title_split_len df') = inr counts
         /\ assign_title_word_count df' counts = clean raw.
Proof.
  cbn zeta. fold (parsed raw). pose proof (parsed_titles raw) as Ht.
  eexists. split; [apply dt_year_astype|].
  rewrite assign_year_map, year_between_filter.
  eexists. split.
  - apply title_split_len_astype. rewrite Forall_forall in *. intros r Hr.
    apply filter_In in Hr as [Hr _]. apply in_map_iff in Hr as (r1 & <- & Hr).
    apply filter_In in Hr as [Hr _]. simpl. apply Ht, Hr.
  - rewrite assign_title_word_count_map. unfold clean, dropna_publish_time.
    induction Ht as [|r l Hr _ IH]; [reflexivity|].
    simpl. unfold keep_row at 1.
    destruct (title r) as [t|] eqn:Et; [|congruence].
    destruct (publish_time r) as [ts|] eqn:Ep; simpl; [|exact IH].
    assert (Hy : year_or_zero r = ts_year ts)
      by (unfold year_or_zero; rewrite Ep; reflexivity).
    rewrite Hy.
    destruct ((2019 <=? wrap16 (ts_year ts)) && (wrap16 (ts_year ts) <=? 2023))%Z;
      [|exact IH].
    simpl. rewrite IH. unfold split_len_or_zero at 1. simpl. rewrite Et, Ep.
    reflexivity.
Qed.

Lemma load_data_run n w :
  load_data n w
  = match files w "metadata.csv" with
    | Some raw => finish n raw (with_opened w (opened w ++ ["metadata.csv"]))
    | None =>
        let w' := with_opened w (opened w ++ ["metadata.csv"; "metadata_sample.csv"]) in
        match files w "metadata_sample.csv" with
        | Some raw => finish n raw w'
        | None => (inl FileNotFoundError, w')
        end
    end.
Proof.
  assert (Htail : forall raw w0,
    (let title_dtype := fst (infer_dtype (map (@title _ _ _) raw), raw) in
     let df := dropna_title_publish_time (snd (infer_dtype (map (@title _ _ _) raw), raw)) in
     let df := convert_dates df in
     let df := dropna_publish_time df in
     years <- lift (astype_int16 (dt_year df)) ;;
     let df := assign_year df years in
     let df := year_between 2019 2023 df in
     lens <- lift (str_accessor title_dtype (title_split_len df)) ;;
     counts <- lift (astype_int16 lens) ;;
     let df := assign_title_word_count df counts in
     if (n <? Z.of_nat (length df))%Z
     then df_sample df n (Some 42%Z)
     else ret df) w0 = finish n raw w0).
  { intros raw w0. destruct (load_columns raw) as (years & Hy & counts & Hc & Heq).
    cbn zeta in *. cbn [fst snd]. unfold finish, bind, lift. rewrite Hy.
    destruct (infer_dtype (map (@title _ _ _) raw)); [|reflexivity].
    cbn [str_accessor]. rewrite Hc, Heq. reflexivity. }
  unfold load_data, bind at 1, try_except, read_csv.
  destruct (files w "metadata.csv") as [raw|] eqn:H1.
  - apply Htail.
  - cbn [exn_eqb files opened with_opened]. rewrite <- app_assoc. cbn [app].
    destruct (files w "metadata_sample.csv") as [raw|] eqn:H2.
    + apply Htail.
    + reflexivity.
Qed.

Lemma permutation_bound g n i : In i (permutation g n) -> i < n.
Proof.
  intros H. apply (Permutation_in _ (permutation_spec g n)) in H.
  apply in_seq in H. lia.
Qed.

Lemma permutation_length g n : length (permutation g n) = n.
Proof. rewrite (Permutation_length (permutation_spec g n)). apply length_seq. Qed.

Lemma take_ok (A : Type) (df : list A) idx :
  Forall (fun i => i < length df) idx ->
  exists rows, take df idx = inr rows /\ length rows = length idx
               /\ Forall (fun r => In r df) rows.
Proof.
  induction 1 as [|i idx Hi _ (rows & Ht & Hl & Hin)].
  - exists []. repeat split. constructor.
  - apply nth_error_Some in Hi. destruct (nth_error df i) as [r|] eqn:Hr; [|congruence].
    exists (r :: rows). simpl. rewrite Hr, Ht. repeat split.
    + rewrite Hl. reflexivity.
    + constructor; [eapply nth_error_In; exact Hr|exact Hin].
Qed.

Lemma draw_ok (A : Type) (df : list A) g n :
  (0 <= n <= Z.of_nat (length df))%Z ->
  exists rows, take df (firstn (Z.to_nat n) (permutation g (length df))) = inr rows
               /\ length rows = Z.to_nat n /\ Forall (fun r => In r df) rows.
Proof.
  intros Hn.
  destruct (@take_ok A df (firstn (Z.to_nat n) (permutation g (length df))))
    as (rows & Ht & Hl & Hin).
  - rewrite Forall_forall. intros i Hi. apply (permutation_bound g).
    rewrite <- (firstn_skipn (Z.to_nat n) (permutation g (length df))).
    apply in_or_app. left. exact Hi.
  - exists rows. repeat split; [exact Ht| |exact Hin].
    rewrite Hl, length_firstn, permutation_length. lia.
Qed.

(** Within the size of the table, sampling returns that many of its rows;
    a seeded sample leaves the global generator alone. *)
Lemma df_sample_ok (A : Type) (df : list A) n random_state w :
  (0 <= n <= Z.of_nat (length df))%Z ->
  exists rows,
    df_sample df n random_state w
    = (inr rows,
       match random_state with
       | Some _ => w
       | None => with_np_random w (np_advance (np_random w) (length df))
       end)
    /\ length rows = Z.to_nat n /\ Forall (fun r => In r df) rows.
Proof.
  intros Hn. unfold df_sample.
  replace ((n <? 0)%Z || (Z.of_nat (length df) <? n)%Z) with false
    by (symmetry; apply orb_false_iff; split; apply Z.ltb_ge; lia).
  destruct random_state as [seed|].
  - destruct (draw_ok df (RandomState seed) Hn) as (rows & Ht & Hl & Hin).
    exists rows. unfold lift. rewrite Ht. repeat split; assumption.
  - destruct (draw_ok df (np_random w) Hn) as (rows & Ht & Hl & Hin).
    exists rows. rewrite Ht. repeat split; assumption.
Qed.

Lemma cap_ok n df w :
  (0 <= n)%Z ->
  exists table,
    cap n df w = (inr table, w)
    /\ length table = Nat.min (Z.to_nat n) (length df)
    /\ Forall (fun r => In r df) table
    /\ ((Z.of_nat (length df) <= n)%Z -> table = df).
Proof.
  intros Hn. unfold cap. destruct (n <? Z.of_nat (length df))%Z eqn:Hlt.
  - apply Z.ltb_lt in Hlt.
    destruct (@df_sample_ok _ df n (Some 42%Z) w) as (rows & Hs & Hl & Hin); [lia|].
    exists rows. repeat split; [exact Hs|lia|exact Hin|lia].
  - apply Z.ltb_ge in Hlt. exists df. repeat split; [lia|].
    rewrite Forall_forall. auto.
Qed.


Lemma take_In (A : Type) (df : list A) idx rows :
  take df idx = inr rows -> Forall (fun r => In r df) rows.
Proof.
  revert rows. induction idx as [|i idx IH]; intros rows H; simpl in H.
  - inversion H. constructor.
  - destruct (nth_error df i) as [r|] eqn:Hr; [|discriminate H].
    destruct (take df idx) as [e|l]; [discriminate H|]. inversion H; subst.
    constructor; [eapply nth_error_In; exact Hr|apply IH; reflexivity].
Qed.

Lemma cap_In n df w table w' :
  cap n df w = (inr table, w') -> Forall (fun r => In r df) table.
Proof.
  unfold cap, df_sample, raise, lift, ret.
  destruct (n <? Z.of_nat (length df))%Z.
  - destruct ((n <? 0)%Z || (Z.of_nat (length df) <? n)%Z); [discriminate|].
    intros H. inversion H as [[Ht Hw]]. apply (take_In _ _ Ht).
  - intros H. inversion H; subst. rewrite Forall_forall. auto.
Qed.

(** The capping step reads nothing of the state but the table given, and
    leaves the state as it is. *)
Lemma cap_pure n df w1 w2 :
  fst (cap n df w1) = fst (cap n df w2) /\ snd (cap n df w1) = w1.
Proof.
  unfold cap, df_sample, raise, lift, ret.
  destruct (n <? Z.of_nat (length df))%Z; [|split; reflexivity].
  destruct ((n <? 0)%Z || (Z.of_nat (length df) <? n)%Z); split; reflexivity.
Qed.

Lemma dropna_In (A : Type) (x : A) l : In x (dropna l) <-> In (Some x) l.
Proof.
  induction l as [|[y|] l IH]; simpl; [reflexivity| |].
  - rewrite IH. split; (intros [H|H]; [left; congruence|right; exact H]).
  - rewrite IH. split; [auto|intros [H|H]; [discriminate|exact H]].
Qed.

Lemma clean_In r raw :
  In r (clean raw) <-> exists r1, In r1 (parsed raw) /\ keep_row r1 = Some r.
Proof.
  unfold clean. rewrite dropna_In, in_map_iff. split; intros (r1 & H1 & H2); eauto.
Qed.

Lemma keep_row_Some r1 r :
  keep_row r1 = Some r ->
  exists t ts,
    title r1 = Some t /\ publish_time r1 = Some ts
    /\ (2019 <= wrap16 (ts_year ts) <= 2023)%Z
    /\ r = mkRow (Some t) (Some ts) (journal r1) (authors r1) (wrap16 (ts_year ts))
                 (wrap16 (Z.of_nat (length (str_split t)))).
Proof.
  unfold keep_row.
  destruct (title r1) as [t|]; [|discriminate].
  destruct (publish_time r1) as [ts|]; [|discriminate]. cbn zeta.
  destruct ((2019 <=? wrap16 (ts_year ts)) && (wrap16 (ts_year ts) <=? 2023))%Z eqn:Hy;
    [|discriminate].
  intros H. inversion H as [Hr]. exists t, ts.
  apply andb_prop in Hy as [Hlo Hhi]. apply Z.leb_le in Hlo, Hhi.
  repeat split; assumption.
Qed.

Lemma keep_row_None r :
  keep_row r = None <->
  title r = None \/ publish_time r = None
  \/ exists ts, publish_time r = Some ts
       /\ ~ (2019 <= wrap16 (ts_year ts) <= 2023)%Z.
Proof.
  unfold keep_row. destruct (title r) as [t|]; [|split; [left; reflexivity|reflexivity]].
  destruct (publish_time r) as [ts|]; [|split; [right; left; reflexivity|reflexivity]].
  cbn zeta. split.
  - intros H. right. right. exists ts. split; [reflexivity|].
    destruct ((2019 <=? wrap16 (ts_year ts)) && (wrap16 (ts_year ts) <=? 2023))%Z eqn:Hy;
      [discriminate|].
    intros [H1 H2]. apply Z.leb_le in H1, H2. rewrite H1, H2 in Hy. discriminate.
  - intros [H|[H|(ts' & Heq & H)]]; try discriminate. inversion Heq; subst ts'.
    destruct ((2019 <=? wrap16 (ts_year ts)) && (wrap16 (ts_year ts) <=? 2023))%Z eqn:Hy;
      [|reflexivity].
    exfalso. apply H. apply andb_prop in Hy as [H1 H2]. apply Z.leb_le in H1, H2.
    split; assumption.
Qed.

Lemma assign_publish_time_In df col (r : dated_row) :
  In r (assign_publish_time df col) ->
  exists r0, In r0 df /\ title r = title r0 /\ journal r = journal r0
             /\ authors r = authors r0.
Proof.
  revert col. induction df as [|r0 df IH]; intros col H; simpl in H; [destruct H|].
  destruct H as [<-|H].
  - exists r0. repeat split. left. reflexivity.
  - destruct (IH _ H) as (r1 & Hin & Ht). exists r1. split; [right; exact Hin|exact Ht].
Qed.

(** A kept row is a row of the file that has a title and a date, with its
    title, journal and authors. *)
Lemma clean_origin raw r :
  In r (clean raw) ->
  exists r0, In r0 raw /\ title r0 <> None /\ publish_time r0 <> None
             /\ title r = title r0 /\ journal r = journal r0
             /\ authors r = authors r0.
Proof.
  intros H. apply clean_In in H as (r1 & Hin & Hk).
  apply keep_row_Some in Hk as (t & ts & Et & _ & _ & ->).
  unfold parsed, convert_dates in Hin.
  apply assign_publish_time_In in Hin as (r0 & Hin & Ht & Hj & Ha).
  apply filter_In in Hin as [Hin Hna]. apply andb_prop in Hna as [H1 H2].
  exists r0. simpl. repeat split.
  - exact Hin.
  - destruct (title r0); [discriminate|discriminate H1].
  - destruct (publish_time r0); [discriminate|discriminate H2].
  - rewrite <- Ht. symmetry. exact Et.
  - exact Hj.
  - exact Ha.
Qed.

Lemma finish_text n raw w :
  infer_dtype (map (@title _ _ _) raw) = ObjectDtype ->
  finish n raw w = cap n (clean raw) w.
Proof. unfold finish. intros ->. reflexivity. Qed.

Lemma finish_numeric n raw w :
  infer_dtype (map (@title _ _ _) raw) = NumericDtype ->
  finish n raw w = (inl AttributeError, w).
Proof. unfold finish. intros ->. reflexivity. Qed.

(** The part of [load_data] after the read uses nothing of the state, and
    leaves it as it is. *)
Lemma finish_pure n raw w1 w2 :
  fst (finish n raw w1) = fst (finish n raw w2) /\ snd (finish n raw w1) = w1.
Proof.
  unfold finish. destruct (infer_dtype (map (@title _ _ _) raw));
    [apply cap_pure|split; reflexivity].
Qed.

Lemma finish_In n raw w table w' :
  finish n raw w = (inr table, w') ->
  infer_dtype (map (@title _ _ _) raw) = ObjectDtype
  /\ Forall (fun r => In r (clean raw)) table.
Proof.
  unfold finish. destruct (infer_dtype (map (@title _ _ _) raw)); [|discriminate].
  intros H. split; [reflexivity|exact (cap_In _ _ _ H)].
Qed.

Lemma cap_negative n df w : (n < 0)%Z -> cap n df w = (inl ValueError, w).
Proof.
  intros Hn. unfold cap, df_sample.
  replace (n <? Z.of_nat (length df))%Z with true by (symmetry; apply Z.ltb_lt; lia).
  replace (n <? 0)%Z with true by (symmetry; apply Z.ltb_lt; lia). reflexivity.
Qed.

Lemma load_data_source n w raw :
  source_file w = Some raw ->
  load_data n w = finish n raw (with_opened w (opened w ++ attempted w)).
Proof.
  intros Hsrc. rewrite load_data_run. unfold source_file, attempted in *.
  destruct (files w "metadata.csv") as [raw1|].
  - inversion Hsrc; subst. reflexivity.
  - cbn zeta. rewrite Hsrc. reflexivity.
Qed.

Lemma load_data_missing n w :
  source_file w = None ->
  load_data n w = (inl FileNotFoundError, with_opened w (opened w ++ attempted w)).
Proof.
  intros Hsrc. rewrite load_data_run. unfold source_file, attempted in *.
  destruct (files w "metadata.csv") as [raw1|]; [discriminate Hsrc|].
  cbn zeta. rewrite Hsrc. reflexivity.
Qed.

Lemma load_data_world n w :
  snd (load_data n w) = with_opened w (opened w ++ attempted w).
Proof.
  destruct (source_file w) as [raw|] eqn:Hsrc.
  - rewrite (@load_data_source n w raw Hsrc). apply (finish_pure n raw _ w).
  - rewrite (@load_data_missing n w Hsrc). reflexivity.
Qed.

(** Every row of a loaded table is a kept row of the file read, whose title
    column is text. *)
Lemma load_data_rows n w table w' :
  load_data n w = (inr table, w') ->
  exists raw, source_file w = Some raw
              /\ infer_dtype (map (@title _ _ _) raw) = ObjectDtype
              /\ Forall (fun r => In r (clean raw)) table.
Proof.
  destruct (source_file w) as [raw|] eqn:Hsrc.
  - rewrite (@load_data_source n w raw Hsrc). intros H. exists raw.
    split; [reflexivity|exact (finish_In _ _ _ H)].
  - rewrite (@load_data_missing n w Hsrc). discriminate.
Qed.

(** With a file to read whose titles are text and a cap that is not
    negative, [load_data] returns a table. *)
Lemma load_data_total n w raw :
  (0 <= n)%Z -> source_file w = Some raw ->
  infer_dtype (map (@title _ _ _) raw) = ObjectDtype ->
  exists table,
    load_data n w = (inr table, with_opened w (opened w ++ attempted w))
    /\ length table = Nat.min (Z.to_nat n) (length (clean raw))
    /\ Forall (fun r => In r (clean raw)) table
    /\ ((Z.of_nat (length (clean raw)) <= n)%Z -> table = clean raw).
Proof.
  intros Hn Hsrc Ht. rewrite (@load_data_source n w raw Hsrc), (@finish_text n raw _ Ht).
  apply cap_ok. exact Hn.
Qed.

(** With a file to read, [load_data] returns a table, or raises
    [AttributeError] or [ValueError]. *)
Lemma load_data_cases n w raw :
  source_file w = Some raw ->
  match infer_dtype (map (@title _ _ _) raw) with
  | NumericDtype => fst (load_data n w) = inl AttributeError
  | ObjectDtype =>
      if (n <? 0)%Z then fst (load_data n w) = inl ValueError
      else exists table, fst (load_data n w) = inr table
                         /\ Forall (fun r => In r (clean raw)) table
  end.
Proof.
  intros Hsrc. rewrite (@load_data_source n w raw Hsrc).
  destruct (infer_dtype (map (@title _ _ _) raw)) eqn:Ht.
  - rewrite (@finish_text n raw _ Ht). destruct (n <? 0)%Z eqn:Hn.
    + apply Z.ltb_lt in Hn. rewrite (@cap_negative n _ _ Hn). reflexivity.
    + apply Z.ltb_ge in Hn.
      destruct (@cap_ok n (clean raw) (with_opened w (opened w ++ attempted w)) Hn)
        as (table & Hc & _ & Hin & _).
      exists table. rewrite Hc. split; [reflexivity|exact Hin].
  - rewrite (@finish_numeric n raw _ Ht). reflexivity.
Qed.

(* ================================================================= *)
(** ** Sampling without replacement *)

Lemma take_app_ok (A : Type) (df : list A) a b la lb :
  take df a = inr la -> take df b = inr lb -> take df (a ++ b) = inr (la ++ lb).
Proof.
  revert la. induction a as [|i a IH]; intros la Ha Hb; simpl in *.
  - inversion Ha. exact Hb.
  - destruct (nth_error df i) as [r|]; [|discriminate Ha].
    destruct (take df a) as [e|l]; [discriminate Ha|]. inversion Ha; subst.
    rewrite (IH l eq_refl Hb). reflexivity.
Qed.

Lemma take_map (A : Type) (df : list A) idx l :
  take df idx = inr l -> map Some l = map (nth_error df) idx.
Proof.
  revert l. induction idx as [|i idx IH]; intros l H; simpl in H.
  - inversion H. reflexivity.
  - destruct (nth_error df i) as [r|] eqn:Hr; [|discriminate H].
    destruct (take df idx) as [e|l']; [discriminate H|]. inversion H; subst.
    simpl. rewrite Hr, (IH l' eq_refl). reflexivity.
Qed.

Lemma nth_error_seq (A : Type) (df : list A) :
  map (nth_error df) (seq 0 (length df)) = map Some df.
Proof.
  induction df as [|x df IH]; [reflexivity|].
  simpl. f_equal. rewrite <- seq_shift, map_map. exact IH.
Qed.

Lemma map_Some_inj (A : Type) (l1 l2 : list A) : map Some l1 = map Some l2 -> l1 = l2.
Proof.
  revert l2. induction l1 as [|x l1 IH]; intros [|y l2] H; try discriminate H.
  - reflexivity.
  - simpl in H. inversion H. f_equal. apply IH. assumption.
Qed.

Lemma take_permutation (A : Type) (df : list A) idx l :
  Permutation idx (seq 0 (length df)) -> take df idx = inr l -> Permutation l df.
Proof.
  intros Hp Ht. apply take_map in Ht.
  apply (Permutation_map (nth_error df)) in Hp. rewrite nth_error_seq, <- Ht in Hp.
  apply Permutation_sym, Permutation_map_inv in Hp as (l3 & Heq & Hp).
  apply map_Some_inj in Heq. subst l3. exact Hp.
Qed.

(** A draw of [n] rows leaves rows that, put after it, give back the table
    up to order. *)
Lemma draw_without_replacement (A : Type) (df : list A) g n :
  (0 <= n <= Z.of_nat (length df))%Z ->
  exists rows rest,
    take df (firstn (Z.to_nat n) (permutation g (length df))) = inr rows
    /\ length rows = Z.to_nat n
    /\ Permutation (rows ++ rest) df.
Proof.
  intros Hn. destruct (draw_ok df g Hn) as (rows & Ht & Hl & _).
  destruct (@take_ok A df (skipn (Z.to_nat n) (permutation g (length df))))
    as (rest & Hr & _ & _).
  { rewrite Forall_forall. intros i Hi. apply (permutation_bound g).
    rewrite <- (firstn_skipn (Z.to_nat n) (permutation g (length df))).
    apply in_or_app. right. exact Hi. }
  exists rows, rest. repeat split; [exact Ht|exact Hl|].
  apply take_permutation with (idx := permutation g (length df));
    [apply permutation_spec|].
  rewrite <- (firstn_skipn (Z.to_nat n) (permutation g (length df))) at 1.
  apply take_app_ok; assumption.
Qed.

(** The cap keeps each row at most once: with the rows it leaves out, the
    table it returns is the table it was given, up to order. *)
Lemma cap_without_replacement n df w :
  (0 <= n)%Z ->
  exists table rest,
    cap n df w = (inr table, w)
    /\ length table = Nat.min (Z.to_nat n) (length df)
    /\ Permutation (table ++ rest) df.
Proof.
  intros Hn. unfold cap. destruct (n <? Z.of_nat (length df))%Z eqn:Hlt.
  - apply Z.ltb_lt in Hlt. unfold df_sample, lift.
    replace ((n <? 0)%Z || (Z.of_nat (length df) <? n)%Z) with false
      by (symmetry; apply orb_false_iff; split; apply Z.ltb_ge; lia).
    destruct (@draw_without_replacement _ df (RandomState 42) n)
      as (rows & rest & Ht & Hl & Hp); [lia|].
    exists rows, rest. rewrite Ht. repeat split; [lia|exact Hp].
  - apply Z.ltb_ge in Hlt. exists df, []. rewrite app_nil_r.
    repeat split; [lia|apply Permutation_refl].
Qed.

(* ================================================================= *)
(** ** The loaded table *)

(** C3 (amended): every row of a loaded table has a title, a parsed date
    and a year between 2019 and 2023, the two constants of the script. The
    rows kept are the rows of the file that have a title and a date, whose
    date parses within its column and whose year is within these bounds; a row
    is dropped, alone, exactly when one of these fails. The load returns a
    table, of kept rows and of all of them in the order of the file when their
    number is within the cap, when the title column of the file is text and
    the cap is not negative; when the title column is not text the load raises
    [AttributeError] instead of dropping any row. *)
Theorem load_data_retained :
  (forall n w table w',
      load_data n w = (inr table, w') ->
      Forall (fun r => title r <> None /\ publish_time r <> None
                       /\ (2019 <= year r <= 2023)%Z) table)
  /\ (forall n w raw,
         (0 <= n)%Z -> source_file w = Some raw ->
         infer_dtype (map (@title _ _ _) raw) = ObjectDtype ->
         exists table,
           fst (load_data n w) = inr table
           /\ Forall (fun r => In r (clean raw)) table
           /\ ((Z.of_nat (length (clean raw)) <= n)%Z -> table = clean raw))
  /\ (forall raw r,
         In r (clean raw) <-> exists r1, In r1 (parsed raw) /\ keep_row r1 = Some r)
  /\ (forall r1,
         keep_row r1 = None <->
         title r1 = None \/ publish_time r1 = None
         \/ exists ts, publish_time r1 = Some ts
              /\ ~ (2019 <= wrap16 (ts_year ts) <= 2023)%Z)
  /\ (forall raw r,
         In r (clean raw) ->
         exists r0, In r0 raw /\ title r0 <> None /\ publish_time r0 <> None
                    /\ title r = title r0 /\ journal r = journal r0
                    /\ authors r = authors r0)
  /\ (forall n w raw,
         source_file w = Some raw ->
         infer_dtype (map (@title _ _ _) raw) = NumericDtype ->
         fst (load_data n w) = inl AttributeError).
Proof.
  split; [|split; [|split; [exact (fun raw r => clean_In r raw)
                           |split; [exact keep_row_None
                                   |split; [exact clean_origin|]]]]].
  - intros n w table w' H. destruct (load_data_rows _ _ H) as (raw & _ & _ & Hin).
    rewrite Forall_forall in *. intros r Hr. apply Hin, clean_In in Hr.
    destruct Hr as (r1 & _ & Hr1).
    destruct (keep_row_Some _ Hr1) as (t & ts & _ & _ & Hy & ->).
    simpl. repeat split; try discriminate; apply Hy.
  - intros n w raw Hn Hsrc Ht.
    destruct (@load_data_total n w raw Hn Hsrc Ht) as (table & Hl & _ & Hin & Hall).
    exists table. rewrite Hl. repeat split; assumption.
  - intros n w raw Hsrc Ht.
    rewrite (@load_data_source n w raw Hsrc), (@finish_numeric n raw _ Ht).
    reflexivity.
Qed.

(** C4 (amended): the title word count of a row of a loaded table is the
    number of whitespace-delimited words of its title, as found, reduced to a
    signed 16-bit integer; it is that number whenever the title has at most
    32767 words. "Rapid COVID-19 Testing Methods" has the 4 words Rapid,
    COVID-19, Testing, Methods. *)
Theorem title_word_count_int16 :
  (forall n w table w',
      load_data n w = (inr table, w') ->
      Forall (fun r =>
                exists t, title r = Some t
                  /\ title_word_count r = wrap16 (Z.of_nat (length (str_split t)))
                  /\ ((Z.of_nat (length (str_split t)) <= 32767)%Z ->
                      title_word_count r = Z.of_nat (length (str_split t))))
             table)
  /\ str_split "Rapid COVID-19 Testing Methods"
     = ["Rapid"; "COVID-19"; "Testing"; "Methods"].
Proof.
  split; [|reflexivity].
  intros n w table w' H. destruct (load_data_rows _ _ H) as (raw & _ & _ & Hin).
  rewrite Forall_forall in *. intros r Hr. apply Hin, clean_In in Hr.
  destruct Hr as (r1 & _ & Hr1).
  destruct (keep_row_Some _ Hr1) as (t & ts & _ & _ & _ & ->).
  exists t. simpl. repeat split. intros Hle. unfold wrap16.
  rewrite Z.mod_small by lia. lia.
Qed.


(** C9 (amended): [load_data] reads [metadata.csv] first and
    [metadata_sample.csv] only when the first does not exist; it fails with
    [FileNotFoundError] exactly when neither exists. With a file it works on
    the first that exists: it returns a table built from it when its title
    column is text and the cap is not negative, raises [AttributeError] when
    its title column is not text, and [ValueError] when the cap is negative. *)
Theorem load_data_sources :
  (forall n w,
      files w "metadata.csv" = None -> files w "metadata_sample.csv" = None ->
      fst (load_data n w) = inl FileNotFoundError)
  /\ (forall n w,
         fst (load_data n w) = inl FileNotFoundError <->
         files w "metadata.csv" = None /\ files w "metadata_sample.csv" = None)
  /\ (forall n w,
         opened (snd (load_data n w))
         = opened w ++ match files w "metadata.csv" with
                       | Some _ => ["metadata.csv"]
                       | None => ["metadata.csv"; "metadata_sample.csv"]
                       end)
  /\ (forall n w raw,
         files w "metadata.csv" = Some raw
         \/ (files w "metadata.csv" = None /\ files w "metadata_sample.csv" = Some raw) ->
         match infer_dtype (map (@title _ _ _) raw) with
         | NumericDtype => fst (load_data n w) = inl AttributeError
         | ObjectDtype =>
             if (n <? 0)%Z then fst (load_data n w) = inl ValueError
             else exists table,
                 fst (load_data n w) = inr table
                 /\ Forall (fun r => In r (clean raw)) table
         end).
Proof.
  assert (Hsrc : forall w raw,
             files w "metadata.csv" = Some raw
             \/ (files w "metadata.csv" = None /\ files w "metadata_sample.csv" = Some raw) ->
             source_file w = Some raw).
  { intros w raw Hf. unfold source_file. destruct Hf as [->|[-> ->]]; reflexivity. }
  assert (Hnone : forall n w,
             files w "metadata.csv" = None -> files w "metadata_sample.csv" = None ->
             fst (load_data n w) = inl FileNotFoundError).
  { intros n w H1 H2. rewrite load_data_missing; [reflexivity|].
    unfold source_file. rewrite H1. exact H2. }
  split; [exact Hnone|split; [|split]].
  - intros n w. split; [|intros [H1 H2]; apply Hnone; assumption].
    intros He. destruct (source_file w) as [raw|] eqn:Hs.
    + pose proof (@load_data_cases n w raw Hs) as Hc. exfalso.
      destruct (infer_dtype (map (@title _ _ _) raw)).
      * destruct (n <? 0)%Z; [congruence|].
        destruct Hc as (table & Hc & _). congruence.
      * congruence.
    + unfold source_file in Hs. destruct (files w "metadata.csv"); [discriminate Hs|].
      split; [reflexivity|exact Hs].
  - intros n w. rewrite load_data_world. reflexivity.
  - intros n w raw Hf. apply load_data_cases, Hsrc, Hf.
Qed.


(* ================================================================= *)
(** ** The year filter *)

Lemma fold_min_le_init l y : (fold_left Z.min l y <= y)%Z.
Proof.
  revert y. induction l as [|a l IH]; intros y; simpl; [lia|].
  specialize (IH (Z.min y a)). lia.
Qed.

Lemma fold_min_le l y x : In x (y :: l) -> (fold_left Z.min l y <= x)%Z.
Proof.
  revert y. induction l as [|a l IH]; intros y Hin.
  - destruct Hin as [->|[]]. simpl. lia.
  - simpl. destruct Hin as [->|[->|Hin]].
    + pose proof (fold_min_le_init l (Z.min x a)). lia.
    + pose proof (fold_min_le_init l (Z.min y x)). lia.
    + apply IH. right. exact Hin.
Qed.

Lemma fold_max_ge_init l y : (y <= fold_left Z.max l y)%Z.
Proof.
  revert y. induction l as [|a l IH]; intros y; simpl; [lia|].
  specialize (IH (Z.max y a)). lia.
Qed.

Lemma fold_max_ge l y x : In x (y :: l) -> (x <= fold_left Z.max l y)%Z.
Proof.
  revert y. induction l as [|a l IH]; intros y Hin.
  - destruct Hin as [->|[]]. simpl. lia.
  - simpl. destruct Hin as [->|[->|Hin]].
    + pose proof (fold_max_ge_init l (Z.max x a)). lia.
    + pose proof (fold_max_ge_init l (Z.max y x)). lia.
    + apply IH. right. exact Hin.
Qed.

Lemma filter_all (A : Type) (f : A -> bool) l :
  (forall x, In x l -> f x = true) -> filter f l = l.
Proof.
  induction l as [|a l IH]; intros H; [reflexivity|].
  simpl. rewrite (H a (or_introl eq_refl)). f_equal. apply IH.
  intros x Hx. apply H. right. exact Hx.
Qed.

(** C6: the year filter keeps exactly the rows whose year lies between the
    two bounds, both included, in their order; with the smallest and the
    largest year of the table as bounds it returns the table. *)
Theorem year_between_inclusive :
  (forall (D W : Type) lo hi (df : list (Row D Z W)),
      year_between lo hi df
      = filter (fun r => ((lo <=? year r) && (year r <=? hi))%Z) df)
  /\ (forall (D W : Type) lo hi (df : list (Row D Z W)) r,
         In r (year_between lo hi df) <-> In r df /\ (lo <= year r <= hi)%Z)
  /\ (forall (D W : Type) (df : list (Row D Z W)) lo hi,
         series_min (map (@year D Z W) df) = Some lo ->
         series_max (map (@year D Z W) df) = Some hi ->
         year_between lo hi df = df).
Proof.
  split; [exact year_between_filter|split].
  - intros D W lo hi df r. rewrite year_between_filter, filter_In.
    rewrite andb_true_iff, !Z.leb_le. reflexivity.
  - intros D W df lo hi Hlo Hhi. rewrite year_between_filter. apply filter_all.
    intros r Hr. apply (in_map (@year D Z W)) in Hr.
    destruct (map (@year D Z W) df) as [|y col]; [destruct Hr|].
    simpl in Hlo, Hhi. inversion Hlo; subst lo. inversion Hhi; subst hi.
    apply andb_true_iff. split; apply Z.leb_le;
      [apply fold_min_le|apply fold_max_ge]; exact Hr.
Qed.

(* ================================================================= *)
(** ** The page *)

(** C10: the sample shown asks for [min(10, n)] rows of the [n] rows of the
    filtered table, never more than there are, and the sampling returns that
    many of its rows, whatever [n] is; for an empty table it returns no row. *)
Theorem sample_display_safe :
  forall (A : Type) (filtered : list A) (w : world),
    let n := Z.min 10 (Z.of_nat (length filtered)) in
    (0 <= n <= Z.of_nat (length filtered))%Z
    /\ exists rows,
         fst (df_sample filtered n None w) = inr rows
         /\ Z.of_nat (length rows) = n
         /\ Forall (fun r => In r filtered) rows.
Proof.
  intros A filtered w n.
  assert (Hn : (0 <= n <= Z.of_nat (length filtered))%Z) by (unfold n; lia).
  split; [exact Hn|].
  destruct (df_sample_ok filtered None w Hn) as (rows & Hs & Hl & Hin).
  exists rows. rewrite Hs. repeat split; [lia|exact Hin].
Qed.

(** With an empty loaded table the script stops at the slider: the smallest
    year of an empty column is [nan], and [int(nan)] raises. *)
Lemma app_empty_table_raises w w' :
  st_cache_data load_data 50000%Z
    (with_page w (page w ++ [PageConfig "CORD-19 Data Explorer" "wide"]))
  = (inr [], w') ->
  fst (app w) = inl ValueError.
Proof.
  intros H. unfold app. unfold bind at 1. cbn [emit].
  unfold bind at 1. rewrite H. reflexivity.
Qed.

(* ================================================================= *)
(** ** More on the title word analysis *)

Lemma str_length r : String.length (str r) = length r.
Proof. induction r as [|c r IH]; [reflexivity|]. simpl. rewrite IH. reflexivity. Qed.

Lemma chars_str l : chars (str l) = l.
Proof. apply list_ascii_of_string_of_list_ascii. Qed.

Lemma runs_In (p : ascii -> bool) cur s r c :
  In r (runs p cur s) -> In c r -> In c (cur ++ s).
Proof.
  revert cur. induction s as [|x s IH]; intros cur Hr Hc; simpl in Hr.
  - rewrite app_nil_r. destruct cur; [destruct Hr|].
    destruct Hr as [<-|[]]. exact Hc.
  - destruct (p x).
    + specialize (IH _ Hr Hc). rewrite <- app_assoc in IH. exact IH.
    + apply in_app_or in Hr as [Hr|Hr].
      * apply in_or_app. left. destruct cur; [destruct Hr|].
        destruct Hr as [<-|[]]. exact Hc.
      * specialize (IH _ Hr Hc). apply in_or_app. right. right. exact IH.
Qed.

Lemma runs_nonempty (p : ascii -> bool) cur s :
  Forall (fun r => r <> []) (runs p cur s).
Proof.
  revert cur. induction s as [|x s IH]; intros cur; simpl.
  - destruct cur; constructor; [discriminate|constructor].
  - destruct (p x); [apply IH|]. apply Forall_app. split; [|apply IH].
    destruct cur; constructor; [discriminate|constructor].
Qed.

Lemma lower_alpha_is_lower c :
  Char.is_alpha (Char.lower c) = true -> Char.is_ascii_lower (Char.lower c) = true.
Proof.
  destruct c as [[] [] [] [] [] [] [] []]; vm_compute; intros H;
    first [reflexivity | discriminate H].
Qed.

Lemma lower_idempotent c : Char.lower (Char.lower c) = Char.lower c.
Proof. destruct c as [[] [] [] [] [] [] [] []]; reflexivity. Qed.

Lemma title_words_In title w :
  In w (title_words title) ->
  is_stop_word w = false
  /\ exists r, w = str r /\ letters3 r = true
       /\ In r (maximal_runs Char.is_word (map Char.lower (chars title))).
Proof.
  unfold title_words, findall. rewrite findall_chars_runs. intros H.
  apply filter_In in H as [H Hstop]. apply negb_true_iff in Hstop.
  split; [exact Hstop|]. apply in_map_iff in H as (r & <- & Hr).
  apply filter_In in Hr as [Hr H3]. exists r. repeat split; [exact H3|].
  unfold str_lower in Hr. rewrite chars_str in Hr. exact Hr.
Qed.

Lemma all_words_In titles w :
  In w (all_words titles) <-> exists t, In (Some t) titles /\ In w (title_words t).
Proof.
  unfold all_words. rewrite in_flat_map. split; intros (t & Ht & Hw); exists t.
  - split; [apply dropna_In; exact Ht|exact Hw].
  - split; [apply dropna_In; exact Ht|exact Hw].
Qed.

(** X1: every word the frequency mapping counts is made of lowercase
    letters [a-z] only, has at least 3 of them, and is not a stop word; its
    count is at least 1. *)
Theorem word_frequency_keys_wellformed :
  forall titles w n,
    In (w, n) (get_word_frequency titles) ->
    Forall (fun c => Char.is_ascii_lower c = true) (chars w)
    /\ 3 <= String.length w
    /\ ~ In w stop_words
    /\ 1 <= n.
Proof.
  intros titles w n Hin. unfold get_word_frequency in Hin.
  assert (Hkey : In w (all_words titles)).
  { apply (proj1 (counter_of_keys (all_words titles))).
    change w with (fst (w, n)). apply in_map. exact Hin. }
  assert (Hn : n = count_occ string_dec (all_words titles) w).
  { rewrite <- counter_get_of. symmetry. apply counter_get_In; [|exact Hin].
    apply StronglySorted_NoDup
      with (R := fun a b => index_of a (all_words titles) < index_of b (all_words titles));
      [intros a; apply Nat.lt_irrefl|apply counter_of_keys]. }
  pose proof Hkey as Hpos. apply (count_occ_In string_dec) in Hpos.
  apply all_words_In in Hkey as (t & _ & Hw).
  apply title_words_In in Hw as (Hstop & r & -> & H3 & Hr).
  unfold letters3 in H3. apply andb_prop in H3 as [Halpha Hlen].
  apply Nat.leb_le in Hlen. rewrite chars_str, str_length.
  repeat split; [|exact Hlen| |lia].
  - rewrite Forall_forall. intros c Hc.
    pose proof (@runs_In _ _ _ _ _ Hr Hc) as Hsrc. simpl in Hsrc.
    apply in_map_iff in Hsrc as (c0 & <- & _). apply lower_alpha_is_lower.
    rewrite forallb_forall in Halpha. apply Halpha. exact Hc.
  - intros Hs. unfold is_stop_word in Hstop.
    assert (existsb (String.eqb (str r)) stop_words = true); [|congruence].
    apply existsb_exists. exists (str r). split; [exact Hs|apply String.eqb_refl].
Qed.

(** X2: the words of a title do not depend on its letter case: lowering
    the titles first changes neither the words of a title nor the frequency
    mapping. *)
Theorem title_words_ignore_case :
  (forall title, title_words (str_lower title) = title_words title)
  /\ (forall titles,
         get_word_frequency (map (option_map str_lower) titles)
         = get_word_frequency titles).
Proof.
  assert (H : forall title, title_words (str_lower title) = title_words title).
  { intros title. unfold title_words. f_equal. f_equal.
    unfold str_lower. rewrite chars_str, map_map. f_equal.
    apply map_ext. intros c. apply lower_idempotent. }
  split; [exact H|].
  intros titles. unfold get_word_frequency. f_equal. unfold all_words.
  induction titles as [|[t|] titles IH]; simpl; [reflexivity| |exact IH].
  rewrite H, IH. reflexivity.
Qed.

Lemma counter_keys_NoDup ws : NoDup (map fst (counter_of ws)).
Proof.
  apply StronglySorted_NoDup with (R := fun a b => index_of a ws < index_of b ws);
    [intros a; apply Nat.lt_irrefl|apply counter_of_keys].
Qed.

Lemma counter_total_incr w c : counter_total (counter_incr w c) = S (counter_total c).
Proof.
  induction c as [|[k n] c IH]; [reflexivity|].
  simpl. destruct (String.eqb k w); simpl; [reflexivity|]. rewrite IH. lia.
Qed.

Lemma dropna_app (A : Type) (l1 l2 : list (option A)) :
  dropna (l1 ++ l2) = dropna l1 ++ dropna l2.
Proof.
  induction l1 as [|[x|] l1 IH]; simpl; [reflexivity| |exact IH].
  rewrite IH. reflexivity.
Qed.

Lemma all_words_app t1 t2 : all_words (t1 ++ t2) = all_words t1 ++ all_words t2.
Proof. unfold all_words. rewrite dropna_app. apply flat_map_app. Qed.

Lemma most_common_length n c : length (most_common n c) = Nat.min n (length c).
Proof.
  unfold most_common.
  rewrite length_firstn, (Permutation_length (sorted_desc_perm c)). reflexivity.
Qed.

(** X3: the frequency mapping has one entry per distinct word of the
    titles, and looking a word up gives the number of its occurrences in all
    the titles together, 0 for a word that occurs in none. *)
Theorem word_frequency_lookup :
  forall titles,
    NoDup (map fst (get_word_frequency titles))
    /\ (forall w, In w (map fst (get_word_frequency titles)) <-> In w (all_words titles))
    /\ (forall w, counter_get w (get_word_frequency titles)
                  = count_occ string_dec (all_words titles) w)
    /\ (forall w, counter_get w (get_word_frequency titles) = 0
                  <-> ~ In w (map fst (get_word_frequency titles))).
Proof.
  intros titles. unfold get_word_frequency.
  pose proof (proj1 (counter_of_keys (all_words titles))) as Hkeys.
  split; [apply counter_keys_NoDup|]. split; [exact Hkeys|].
  split; [intros w; apply counter_get_of|].
  intros w. rewrite counter_get_of, Hkeys. symmetry. apply count_occ_not_In.
Qed.

(** X4: the counts of the frequency mapping add up to the number of words
    found in the titles, and the count of a word over two sequences of titles
    put together is the sum of its counts over each. *)
Theorem word_frequency_total :
  (forall titles, counter_total (get_word_frequency titles) = length (all_words titles))
  /\ (forall t1 t2 w,
         counter_get w (get_word_frequency (t1 ++ t2))
         = counter_get w (get_word_frequency t1) + counter_get w (get_word_frequency t2)).
Proof.
  split.
  - intros titles. unfold get_word_frequency.
    induction (all_words titles) as [|w ws IH] using rev_ind; [reflexivity|].
    rewrite counter_of_snoc, counter_total_incr, IH, length_app. simpl. lia.
  - intros t1 t2 w. unfold get_word_frequency.
    rewrite !counter_get_of, all_words_app. apply count_occ_app.
Qed.

(** X5: the mapping handed to the charts is empty exactly when no title
    yields a word; this is the case in which the word cloud is skipped. *)
Theorem common_words_empty :
  forall titles,
    common_words titles = [] <-> (forall t, In (Some t) titles -> title_words t = []).
Proof.
  intros titles. unfold common_words, get_word_frequency.
  assert (H1 : most_common 20 (counter_of (all_words titles)) = []
               <-> counter_of (all_words titles) = []).
  { rewrite <- (length_zero_iff_nil (counter_of (all_words titles))).
    rewrite <- length_zero_iff_nil, most_common_length. lia. }
  assert (H2 : counter_of (all_words titles) = [] <-> all_words titles = []).
  { pose proof (proj1 (counter_of_keys (all_words titles))) as Hkeys. split; intros H.
    - destruct (all_words titles) as [|w ws]; [reflexivity|].
      specialize (proj2 (Hkeys w) (or_introl eq_refl)). rewrite H. intros [].
    - destruct (counter_of (all_words titles)) as [|[k n] c]; [reflexivity|].
      specialize (proj1 (Hkeys k) (or_introl eq_refl)). rewrite H. intros []. }
  rewrite H1, H2. split.
  - intros H t Ht. destruct (title_words t) as [|w ws] eqn:Hw; [reflexivity|].
    assert (Hin : In w (all_words titles)).
    { apply all_words_In. exists t. rewrite Hw. split; [exact Ht|left; reflexivity]. }
    rewrite H in Hin. destruct Hin.
  - intros H. destruct (all_words titles) as [|w ws] eqn:Hw; [reflexivity|].
    assert (Hin : In w (all_words titles)) by (rewrite Hw; left; reflexivity).
    apply all_words_In in Hin as (t & Ht & Hin). rewrite (H t Ht) in Hin. destruct Hin.
Qed.

(** X6: asking for at least as many entries as the mapping has returns all
    of them, reordered; a smaller top is the start of a larger one, so the 15
    bars drawn from the top 20 are the top 15. *)
Theorem most_common_prefix :
  (forall n c, length c <= n -> Permutation (most_common n c) c)
  /\ (forall n m c, n <= m -> most_common n c = firstn n (most_common m c))
  /\ (forall c,
         firstn 15 (map fst (most_common 20 c)) = map fst (most_common 15 c)
         /\ firstn 15 (map snd (most_common 20 c)) = map snd (most_common 15 c)).
Proof.
  assert (Hpre : forall n m c, n <= m -> most_common n c = firstn n (most_common m c)).
  { intros n m c Hnm. unfold most_common. rewrite firstn_firstn.
    rewrite Nat.min_l by exact Hnm. reflexivity. }
  split; [|split; [exact Hpre|]].
  - intros n c Hlen. unfold most_common. rewrite firstn_all2; [apply sorted_desc_perm|].
    rewrite (Permutation_length (sorted_desc_perm c)). exact Hlen.
  - intros c. rewrite !firstn_map, <- (Hpre 15 20 c) by lia. split; reflexivity.
Qed.

(* ================================================================= *)
(** ** More on the loader and the year filter *)

Lemma chars_length s : length (chars s) = String.length s.
Proof. induction s as [|c s IH]; [reflexivity|]. simpl. rewrite IH. reflexivity. Qed.

Lemma str_chars s : str (chars s) = s.
Proof. apply string_of_list_ascii_of_string. Qed.

Lemma runs_count (p : ascii -> bool) cur s :
  2 * length (runs p cur s) <= length s + match cur with [] => 1 | _ :: _ => 2 end.
Proof.
  revert cur. induction s as [|x s IH]; intros cur; simpl.
  - destruct cur; simpl; lia.
  - destruct (p x).
    + specialize (IH (cur ++ [x])). destruct (cur ++ [x]) eqn:E.
      * destruct cur; discriminate E.
      * destruct cur; lia.
    + rewrite length_app. specialize (IH []). simpl in IH.
      destruct cur; simpl; lia.
Qed.

Lemma runs_all (p : ascii -> bool) cur s :
  forallb p s = true -> runs p cur s = flush (cur ++ s).
Proof.
  revert cur. induction s as [|x s IH]; intros cur H; simpl.
  - rewrite app_nil_r. reflexivity.
  - simpl in H. apply andb_prop in H as [Hx Hs]. rewrite Hx, (IH _ Hs), <- app_assoc.
    reflexivity.
Qed.

Lemma runs_none (p : ascii -> bool) s :
  forallb (fun c => negb (p c)) s = true -> runs p [] s = [].
Proof.
  induction s as [|x s IH]; intros H; [reflexivity|].
  simpl in H. apply andb_prop in H as [Hx Hs]. apply negb_true_iff in Hx.
  simpl. rewrite Hx. exact (IH Hs).
Qed.

Lemma str_split_count s : 2 * length (str_split s) <= String.length s + 1.
Proof.
  unfold str_split, maximal_runs. rewrite length_map, <- chars_length.
  apply (runs_count (fun c => negb (Char.is_space c)) [] (chars s)).
Qed.

(** X7: the words [split()] returns are never empty and hold no
    whitespace; a text of [n] characters has at most [(n + 1) / 2] words; a
    text without whitespace is its own single word, and a text of whitespace
    only has no word. *)
Theorem str_split_words :
  (forall s w, In w (str_split s) ->
               w <> "" /\ Forall (fun c => Char.is_space c = false) (chars w))
  /\ (forall s, 2 * length (str_split s) <= String.length s + 1)
  /\ (forall s, s <> "" -> Forall (fun c => Char.is_space c = false) (chars s) ->
                str_split s = [s])
  /\ (forall s, Forall (fun c => Char.is_space c = true) (chars s) -> str_split s = []).
Proof.
  split; [|split; [|split]].
  - intros s w Hin. unfold str_split, maximal_runs in Hin.
    apply in_map_iff in Hin as (r & <- & Hr). split.
    + pose proof (runs_nonempty (fun c => negb (Char.is_space c)) [] (chars s)) as Hne.
      rewrite Forall_forall in Hne. specialize (Hne r Hr).
      destruct r; [congruence|discriminate].
    + pose proof (runs_forall (fun c => negb (Char.is_space c)) [] (chars s) eq_refl)
        as Hall.
      rewrite Forall_forall in Hall. specialize (Hall r Hr).
      rewrite chars_str, Forall_forall. intros c Hc.
      rewrite forallb_forall in Hall. apply negb_true_iff, Hall, Hc.
  - exact str_split_count.
  - intros s Hne Hall. unfold str_split, maximal_runs. rewrite runs_all.
    + simpl. destruct (chars s) as [|c l] eqn:E.
      * exfalso. apply Hne. rewrite <- (str_chars s), E. reflexivity.
      * cbn [flush map]. rewrite <- E, str_chars. reflexivity.
    + rewrite forallb_forall. rewrite Forall_forall in Hall.
      intros c Hc. apply negb_true_iff, Hall, Hc.
  - intros s Hall. unfold str_split, maximal_runs. rewrite runs_none; [reflexivity|].
    rewrite forallb_forall. rewrite Forall_forall in Hall.
    intros c Hc. rewrite (Hall c Hc). reflexivity.
Qed.

(** What holds of every row of a loaded table. *)
Lemma load_data_row_facts n w table w' r :
  load_data n w = (inr table, w') -> In r table ->
  exists t ts,
    title r = Some t /\ publish_time r = Some ts
    /\ year r = wrap16 (ts_year ts) /\ (2019 <= year r <= 2023)%Z
    /\ title_word_count r = wrap16 (Z.of_nat (length (str_split t))).
Proof.
  intros H Hr. destruct (load_data_rows _ _ H) as (raw & _ & _ & Hin).
  rewrite Forall_forall in Hin. apply Hin, clean_In in Hr.
  destruct Hr as (r0 & _ & Hr0).
  destruct (keep_row_Some _ Hr0) as (t & ts & _ & _ & Hy & ->).
  exists t, ts. simpl. repeat split; apply Hy.
Qed.

(** X8: for a row of a loaded table whose title has fewer than 65535
    characters, the title word count is the number of words of the title, and
    lies between 0 and 32767: the 16-bit column cannot wrap on such a title. *)
Theorem title_word_count_exact_below_65535 :
  forall n w table w',
    load_data n w = (inr table, w') ->
    Forall (fun r =>
              forall t, title r = Some t ->
                        (Z.of_nat (String.length t) < 65535)%Z ->
                        title_word_count r = Z.of_nat (length (str_split t))
                        /\ (0 <= title_word_count r <= 32767)%Z)
           table.
Proof.
  intros n w table w' H. rewrite Forall_forall. intros r Hr t Ht Hlen.
  destruct (@load_data_row_facts _ _ _ _ _ H Hr) as (t' & ts & Ht' & _ & _ & _ & Hc).
  rewrite Ht in Ht'. inversion Ht'; subst t'.
  pose proof (str_split_count t) as Hb.
  assert (Hsmall : (0 <= Z.of_nat (length (str_split t)) <= 32767)%Z) by lia.
  rewrite Hc. unfold wrap16. rewrite Z.mod_small by lia. lia.
Qed.

Lemma filter_filter (A : Type) (f g : A -> bool) l :
  filter f (filter g l) = filter (fun x => g x && f x) l.
Proof.
  induction l as [|a l IH]; [reflexivity|].
  simpl. destruct (g a); simpl; [destruct (f a)|]; rewrite IH; reflexivity.
Qed.

(** X9: filtering twice is filtering once on the intersection of the two
    ranges, so filtering again on the same range changes nothing; a range whose
    lower bound exceeds the upper one keeps no row; the filter never adds a
    row. *)
Theorem year_between_compose :
  (forall (D W : Type) a b c d (df : list (Row D Z W)),
      year_between a b (year_between c d df)
      = year_between (Z.max a c) (Z.min b d) df)
  /\ (forall (D W : Type) lo hi (df : list (Row D Z W)),
         year_between lo hi (year_between lo hi df) = year_between lo hi df)
  /\ (forall (D W : Type) lo hi (df : list (Row D Z W)),
         (hi < lo)%Z -> year_between lo hi df = [])
  /\ (forall (D W : Type) lo hi (df : list (Row D Z W)),
         length (year_between lo hi df) <= length df).
Proof.
  assert (Hcomp : forall (D W : Type) a b c d (df : list (Row D Z W)),
             year_between a b (year_between c d df)
             = year_between (Z.max a c) (Z.min b d) df).
  { intros D W a b c d df. rewrite !year_between_filter, filter_filter.
    apply filter_ext. intros r.
    destruct (Z.leb_spec c (year r)), (Z.leb_spec (year r) d),
      (Z.leb_spec a (year r)), (Z.leb_spec (year r) b),
      (Z.leb_spec (Z.max a c) (year r)), (Z.leb_spec (year r) (Z.min b d));
      simpl; try reflexivity; lia. }
  split; [exact Hcomp|split; [|split]].
  - intros D W lo hi df. rewrite Hcomp, Z.max_id, Z.min_id. reflexivity.
  - intros D W lo hi df Hlt. rewrite year_between_filter.
    induction df as [|r df IH]; [reflexivity|]. simpl.
    destruct (Z.leb_spec lo (year r)), (Z.leb_spec (year r) hi); simpl;
      try exact IH; lia.
  - intros D W lo hi df. rewrite year_between_filter. apply filter_length_le.
Qed.

(** X10: whatever range the slider gives, every row of the filtered table
    is a row of the loaded table, has a title, and has its year both in the
    range selected and in 2019..2023. *)
Theorem filtered_rows_keep_invariants :
  forall n w df w' lo hi,
    load_data n w = (inr df, w') ->
    Forall (fun r => In r df /\ title r <> None
                     /\ (Z.max lo 2019 <= year r <= Z.min hi 2023)%Z)
           (year_between lo hi df).
Proof.
  intros n w df w' lo hi H. rewrite Forall_forall. intros r Hr.
  rewrite year_between_filter in Hr. apply filter_In in Hr as [Hr Hy].
  apply andb_prop in Hy as [H1 H2]. apply Z.leb_le in H1, H2.
  destruct (@load_data_row_facts _ _ _ _ _ H Hr) as (t & ts & Ht & _ & _ & Hy & _).
  repeat split; [exact Hr|rewrite Ht; discriminate|lia|lia].
Qed.

(* ================================================================= *)
(** ** The yearly counts and the peak year *)

Lemma series_get_above x s :
  Forall (fun e => (x < fst e)%Z) s -> series_get x s = 0.
Proof.
  induction 1 as [|[k n] s Hk _ IH]; [reflexivity|].
  simpl in *. destruct (Z.eqb_spec k x); [lia|exact IH].
Qed.

Lemma count_in_order_get x y s :
  StronglySorted key_lt s ->
  series_get y (count_in_order x s)
  = if (x =? y)%Z then S (series_get y s) else series_get y s.
Proof.
  induction 1 as [|[k n] s Hs IH Hf]; simpl.
  - destruct (x =? y)%Z; reflexivity.
  - destruct (Z.ltb_spec x k) as [Hlt|Hge]; simpl.
    + destruct (Z.eqb_spec x y) as [->|Hxy]; [|reflexivity].
      destruct (Z.eqb_spec k y); [lia|]. f_equal. symmetry.
      apply series_get_above. rewrite Forall_forall in *. intros e He.
      specialize (Hf e He). unfold key_lt in Hf. simpl in Hf. lia.
    + destruct (Z.eqb_spec x k) as [->|Hxk]; simpl.
      * destruct (Z.eqb_spec k y); reflexivity.
      * rewrite IH. destruct (Z.eqb_spec k y) as [->|Hky]; [|reflexivity].
        destruct (Z.eqb_spec x y); [congruence|reflexivity].
Qed.

Lemma count_in_order_keys x a s :
  (fst a < x)%Z -> Forall (key_lt a) s -> Forall (key_lt a) (count_in_order x s).
Proof.
  intros Hk. induction 1 as [|[k' n'] s Hk' Hs IH]; simpl.
  - constructor; [exact Hk|constructor].
  - destruct (x <? k')%Z; [constructor; [exact Hk|constructor; assumption]|].
    destruct (x =? k')%Z; constructor; assumption.
Qed.

Lemma count_in_order_sorted x s :
  StronglySorted key_lt s -> StronglySorted key_lt (count_in_order x s).
Proof.
  induction 1 as [|[k n] s Hs IH Hf]; simpl.
  - repeat constructor.
  - destruct (Z.ltb_spec x k) as [Hlt|Hge].
    + constructor; [constructor; assumption|].
      constructor; [exact Hlt|]. rewrite Forall_forall in *. intros e He.
      specialize (Hf e He). unfold key_lt in *. simpl in *. lia.
    + destruct (Z.eqb_spec x k) as [->|Hxk].
      * constructor; [exact Hs|exact Hf].
      * constructor; [exact IH|].
        apply count_in_order_keys; [simpl; lia|exact Hf].
Qed.

Lemma count_in_order_positive x s :
  Forall (fun e => 1 <= snd e) s -> Forall (fun e => 1 <= snd e) (count_in_order x s).
Proof.
  induction 1 as [|[k n] s Hn Hs IH]; simpl.
  - repeat constructor.
  - simpl in Hn. destruct (x <? k)%Z.
    + constructor; [simpl; lia|constructor; assumption].
    + destruct (x =? k)%Z; constructor; simpl; try assumption; lia.
Qed.

Lemma count_in_order_sum x s :
  list_sum (map snd (count_in_order x s)) = S (list_sum (map snd s)).
Proof.
  induction s as [|[k n] s IH]; [reflexivity|]. simpl.
  destruct (x <? k)%Z; [reflexivity|].
  destruct (x =? k)%Z; simpl; [reflexivity|]. rewrite IH. lia.
Qed.

Lemma value_counts_snoc col y :
  value_counts_sort_index (col ++ [y]) = count_in_order y (value_counts_sort_index col).
Proof. unfold value_counts_sort_index. rewrite fold_left_app. reflexivity. Qed.

Lemma value_counts_invariant col :
  StronglySorted key_lt (value_counts_sort_index col)
  /\ Forall (fun e => 1 <= snd e) (value_counts_sort_index col)
  /\ (forall y, series_get y (value_counts_sort_index col) = count_occ Z.eq_dec col y)
  /\ list_sum (map snd (value_counts_sort_index col)) = length col.
Proof.
  induction col as [|x col (Hs & Hp & Hg & Hsum)] using rev_ind.
  - repeat split; constructor.
  - rewrite value_counts_snoc. split; [apply count_in_order_sorted, Hs|].
    split; [apply count_in_order_positive, Hp|]. split.
    + intros y. rewrite (count_in_order_get x y Hs), Hg, count_occ_app. simpl.
      destruct (Z.eqb_spec x y) as [->|Hne].
      * destruct (Z.eq_dec y y); [lia|congruence].
      * destruct (Z.eq_dec x y); [congruence|lia].
    + rewrite count_in_order_sum, Hsum, length_app. simpl. lia.
Qed.

Lemma series_get_In y n s :
  StronglySorted key_lt s -> In (y, n) s -> series_get y s = n.
Proof.
  induction 1 as [|[k m] s Hs IH Hf]; intros Hin; [destruct Hin|].
  simpl. destruct Hin as [Heq|Hin].
  - inversion Heq; subst. rewrite Z.eqb_refl. reflexivity.
  - destruct (Z.eqb_spec k y) as [->|Hne]; [|apply IH, Hin].
    rewrite Forall_forall in Hf. specialize (Hf _ Hin). unfold key_lt in Hf.
    simpl in Hf. lia.
Qed.

Lemma series_get_found y s : series_get y s <> 0 -> In (y, series_get y s) s.
Proof.
  induction s as [|[k m] s IH]; simpl; [congruence|].
  destruct (Z.eqb_spec k y) as [->|Hne]; [left; reflexivity|].
  intros H. right. apply IH, H.
Qed.

(** X11: the yearly counts list each year of the column once, by
    increasing year, with the number of rows of that year; the counts add up
    to the number of rows, and there is no entry exactly when there is no
    row. *)
Theorem yearly_counts_spec :
  forall col,
    StronglySorted (fun a b => (fst a < fst b)%Z) (value_counts_sort_index col)
    /\ (forall y n, In (y, n) (value_counts_sort_index col)
                    <-> n = count_occ Z.eq_dec col y /\ 1 <= n)
    /\ list_sum (map snd (value_counts_sort_index col)) = length col
    /\ (value_counts_sort_index col = [] <-> col = []).
Proof.
  intros col. destruct (value_counts_invariant col) as (Hs & Hp & Hg & Hsum).
  split; [exact Hs|]. split; [|split; [exact Hsum|]].
  - intros y n. split.
    + intros Hin. rewrite <- Hg, (@series_get_In _ _ _ Hs Hin). split; [reflexivity|].
      rewrite Forall_forall in Hp. apply (Hp _ Hin).
    + intros [-> Hn]. rewrite <- Hg in *. apply series_get_found. lia.
  - split; intros H.
    + rewrite H in Hsum. simpl in Hsum. symmetry in Hsum.
      apply length_zero_iff_nil in Hsum. exact Hsum.
    + subst col. reflexivity.
Qed.

Lemma fold_max_nat l a m :
  Forall (fun n => n <= m) (a :: l) -> In m (a :: l) -> fold_left Nat.max l a = m.
Proof.
  revert a. induction l as [|x l IH]; intros a Hall Hin.
  - destruct Hin as [->|[]]. reflexivity.
  - simpl. inversion Hall as [|? ? Ha Hall']; subst.
    inversion Hall' as [|? ? Hx Hl]; subst. apply IH.
    + constructor; [lia|exact Hl].
    + destruct Hin as [->|[->|Hin]]; [left; lia|left; lia|right; exact Hin].
Qed.

Lemma idxmax_from_spec l :
  forall pre best mid,
    Forall (fun e => snd e < snd best) pre ->
    Forall (fun e => snd e <= snd best) mid ->
    exists l1 e l2,
      pre ++ best :: mid ++ l = l1 ++ e :: l2
      /\ idxmax_from best l = fst e
      /\ Forall (fun x => snd x < snd e) l1
      /\ Forall (fun x => snd x <= snd e) l2.
Proof.
  induction l as [|x l IH]; intros pre best mid Hpre Hmid.
  - exists pre, best, mid. rewrite app_nil_r. repeat split; assumption.
  - simpl. destruct (Nat.ltb_spec (snd best) (snd x)) as [Hlt|Hge].
    + destruct (IH (pre ++ best :: mid) x []) as (l1 & e & l2 & Heq & Hres & H1 & H2).
      * apply Forall_app. split.
        -- rewrite Forall_forall in *. intros z Hz. specialize (Hpre z Hz). lia.
        -- constructor; [exact Hlt|]. rewrite Forall_forall in *. intros z Hz.
           specialize (Hmid z Hz). lia.
      * constructor.
      * exists l1, e, l2. rewrite <- Heq, <- app_assoc. repeat split; assumption.
    + destruct (IH pre best (mid ++ [x])) as (l1 & e & l2 & Heq & Hres & H1 & H2).
      * exact Hpre.
      * apply Forall_app. split; [exact Hmid|constructor; [exact Hge|constructor]].
      * exists l1, e, l2. rewrite <- Heq, <- app_assoc. repeat split; assumption.
Qed.

Lemma idxmax_decompose x s :
  exists l1 m l2,
    x :: s = l1 ++ (idxmax_from x s, m) :: l2
    /\ Forall (fun e => snd e < m) l1
    /\ Forall (fun e => snd e <= m) l2
    /\ counts_max (x :: s) = Some m.
Proof.
  destruct (@idxmax_from_spec s [] x []) as (l1 & [k m] & l2 & Heq & Hres & H1 & H2);
    [constructor|constructor|].
  simpl in Heq, Hres, H1, H2. exists l1, m, l2. rewrite Hres.
  repeat split; [exact Heq|exact H1|exact H2|].
  unfold counts_max. f_equal.
  change (fold_left Nat.max (map snd s) (snd x))
    with (fold_left Nat.max (tl (map snd (x :: s))) (hd 0 (map snd (x :: s)))).
  rewrite Heq. assert (Hall : Forall (fun n => n <= m) (map snd (l1 ++ (k, m) :: l2))).
  { rewrite map_app. apply Forall_app. split.
    - rewrite Forall_forall in *. intros n Hn. apply in_map_iff in Hn as (e & <- & He).
      specialize (H1 e He). lia.
    - simpl. constructor; [lia|]. rewrite Forall_forall in *. intros n Hn.
      apply in_map_iff in Hn as (e & <- & He). apply (H2 e He). }
  assert (Hin : In m (map snd (l1 ++ (k, m) :: l2))).
  { rewrite map_app. apply in_or_app. right. left. reflexivity. }
  destruct (map snd (l1 ++ (k, m) :: l2)) as [|a l]; [destruct Hin|].
  simpl. apply fold_max_nat; assumption.
Qed.

(** X12: the peak label is undefined ([ValueError]) exactly on an empty
    series; otherwise it is the label of the first entry that carries the
    largest value: every entry before it is smaller, none after it is larger,
    and its value is the maximum shown beside it. *)
Theorem idxmax_first_largest :
  forall s,
    (idxmax s = inl ValueError <-> s = [])
    /\ (s <> [] -> exists y, idxmax s = inr y)
    /\ (forall y, idxmax s = inr y ->
          exists l1 m l2,
            s = l1 ++ (y, m) :: l2
            /\ Forall (fun e => snd e < m) l1
            /\ Forall (fun e => snd e <= m) l2
            /\ counts_max s = Some m).
Proof.
  intros s. destruct s as [|x s].
  - split; [split; reflexivity|]. split; [congruence|]. intros y H. discriminate H.
  - split; [split; discriminate|]. split; [intros _; eexists; reflexivity|].
    intros y H. simpl in H. inversion H as [Hy]. apply idxmax_decompose.
Qed.

Lemma StronglySorted_after (A : Type) (R : A -> A -> Prop) l1 a l2 :
  StronglySorted R (l1 ++ a :: l2) -> Forall (R a) l2.
Proof.
  induction l1 as [|x l1 IH]; simpl; intros H; inversion H; subst; auto.
Qed.

(** X13: on a column with at least one row, the peak year shown is a year
    of the column that no year beats in number of rows, and the earliest of
    the years with that number; the peak count shown beside it is that
    number. *)
Theorem peak_year_earliest_busiest :
  forall col,
    col <> [] ->
    exists y,
      idxmax (value_counts_sort_index col) = inr y
      /\ In y col
      /\ (forall y', count_occ Z.eq_dec col y' <= count_occ Z.eq_dec col y)
      /\ (forall y', count_occ Z.eq_dec col y' = count_occ Z.eq_dec col y -> (y <= y')%Z)
      /\ counts_max (value_counts_sort_index col) = Some (count_occ Z.eq_dec col y).
Proof.
  intros col Hne. destruct (value_counts_invariant col) as (Hs & Hp & Hg & Hsum).
  destruct (value_counts_sort_index col) as [|x s] eqn:Es.
  { simpl in Hsum. symmetry in Hsum. apply length_zero_iff_nil in Hsum. congruence. }
  destruct (idxmax_decompose x s) as (l1 & m & l2 & Heq & H1 & H2 & Hmax).
  set (y := idxmax_from x s) in *.
  assert (Hin : In (y, m) (x :: s)).
  { rewrite Heq. apply in_or_app. right. left. reflexivity. }
  assert (Hm : m = count_occ Z.eq_dec col y).
  { rewrite <- Hg. symmetry. apply series_get_In; assumption. }
  assert (Hpos : 1 <= m).
  { rewrite Forall_forall in Hp. apply (Hp _ Hin). }
  assert (Hcases : forall y' c, c <> 0 -> c = count_occ Z.eq_dec col y' ->
            In (y', c) l1 \/ (y', c) = (y, m) \/ In (y', c) l2).
  { intros y' c Hc Hc'.
    assert (Hf : In (y', c) (x :: s)).
    { rewrite Hc', <- Hg. apply series_get_found. rewrite Hg, <- Hc'. exact Hc. }
    rewrite Heq in Hf. apply in_app_or in Hf as [Hf|[Hf|Hf]]; auto. }
  exists y. split; [reflexivity|]. split; [|split; [|split]].
  - apply (count_occ_In Z.eq_dec). lia.
  - intros y'. rewrite <- Hm.
    destruct (Nat.eq_dec (count_occ Z.eq_dec col y') 0) as [->|Hc]; [lia|].
    rewrite Forall_forall in H1, H2.
    destruct (Hcases y' _ Hc eq_refl) as [Hc1|[Hc1|Hc1]].
    + specialize (H1 _ Hc1). simpl in H1. lia.
    + inversion Hc1. lia.
    + specialize (H2 _ Hc1). simpl in H2. lia.
  - intros y' Heqc. rewrite <- Hm in Heqc.
    rewrite Forall_forall in H1.
    destruct (Hcases y' m ltac:(lia) (eq_sym Heqc)) as [Hc1|[Hc1|Hc1]].
    + specialize (H1 _ Hc1). simpl in H1. lia.
    + inversion Hc1. lia.
    + rewrite Heq in Hs. apply StronglySorted_after in Hs.
      rewrite Forall_forall in Hs. specialize (Hs _ Hc1). unfold key_lt in Hs.
      simpl in Hs. lia.
  - rewrite Hmax, Hm. reflexivity.
Qed.

Lemma fold_min_In l y : In (fold_left Z.min l y) (y :: l).
Proof.
  revert y. induction l as [|x l IH]; intros y; [left; reflexivity|].
  simpl. destruct (IH (Z.min y x)) as [H|H]; [|right; right; exact H].
  rewrite <- H. destruct (Z.min_spec y x) as [[_ E]|[_ E]]; rewrite E; simpl; auto.
Qed.

Lemma fold_max_In l y : In (fold_left Z.max l y) (y :: l).
Proof.
  revert y. induction l as [|x l IH]; intros y; [left; reflexivity|].
  simpl. destruct (IH (Z.max y x)) as [H|H]; [|right; right; exact H].
  rewrite <- H. destruct (Z.max_spec y x) as [[_ E]|[_ E]]; rewrite E; simpl; auto.
Qed.

(** X14: for the filtered rows of a loaded table, the number of years
    covered is [nan] when no row is left and otherwise the largest year minus
    the smallest plus one, a number from 1 to 5: the 16-bit arithmetic cannot
    wrap. *)
Theorem years_covered_at_most_5 :
  forall n w df w' lo hi,
    load_data n w = (inr df, w') ->
    let col := map (@year _ _ _) (year_between lo hi df) in
    match col with
    | [] => years_covered col = Float NaN
    | _ :: _ =>
        exists a b,
          series_min col = Some a /\ series_max col = Some b
          /\ years_covered col = Num (b - a + 1)
          /\ (1 <= b - a + 1 <= 5)%Z
    end.
Proof.
  intros n w df w' lo hi H col.
  assert (Hrange : forall y, In y col -> (2019 <= y <= 2023)%Z).
  { intros y Hy. apply in_map_iff in Hy as (r & <- & Hr).
    rewrite year_between_filter in Hr. apply filter_In in Hr as [Hr _].
    destruct (@load_data_row_facts _ _ _ _ _ H Hr) as (t & ts & _ & _ & _ & Hy & _).
    exact Hy. }
  destruct col as [|y c]; [reflexivity|].
  exists (fold_left Z.min c y), (fold_left Z.max c y).
  pose proof (Hrange _ (fold_min_In c y)) as Ha.
  pose proof (Hrange _ (fold_max_In c y)) as Hb.
  pose proof (fold_min_le_init c y) as Hlo.
  pose proof (fold_max_ge_init c y) as Hhi.
  split; [reflexivity|]. split; [reflexivity|]. split; [|lia].
  unfold years_covered. simpl series_max. simpl series_min. cbv iota.
  f_equal. unfold wrap16.
  rewrite (Z.mod_small (fold_left Z.max c y - fold_left Z.min c y + 32768)) by lia.
  rewrite Z.mod_small by lia. lia.
Qed.

Lemma dropna_length (A : Type) (l : list (option A)) : length (dropna l) <= length l.
Proof. induction l as [|[x|] l IH]; simpl; lia. Qed.

(** X15: the number of unique journals counts each journal that occurs
    once and leaves missing values out: it is at most the number of rows, it
    is 0 exactly when every journal is missing, and a row changes it only by
    bringing a journal not seen in the rows after it. *)
Theorem nunique_counts_distinct :
  forall col,
    nunique col <= length col
    /\ (nunique col = 0 <-> forall j, In j col -> j = None)
    /\ nunique (None :: col) = nunique col
    /\ (forall j, nunique (Some j :: col)
                  = if in_dec string_dec j (dropna col)
                    then nunique col else S (nunique col)).
Proof.
  intros col. unfold nunique. split; [|split; [|split]].
  - apply Nat.le_trans with (length (dropna col)); [|apply dropna_length].
    apply NoDup_incl_length; [apply NoDup_nodup|].
    intros x Hx. apply nodup_In in Hx. exact Hx.
  - rewrite length_zero_iff_nil. split.
    + intros H [j|] Hj; [|reflexivity].
      apply dropna_In, (nodup_In string_dec) in Hj. rewrite H in Hj. destruct Hj.
    + intros H. destruct (nodup string_dec (dropna col)) as [|j l] eqn:E; [reflexivity|].
      assert (Hj : In j (nodup string_dec (dropna col))) by (rewrite E; left; reflexivity).
      apply nodup_In, dropna_In, H in Hj. discriminate Hj.
  - reflexivity.
  - intros j. simpl. destruct (in_dec string_dec j (dropna col)); reflexivity.
Qed.

(* ================================================================= *)
(** ** Sampling, the cap and the cache *)

(** X16: [sample(n)] raises [ValueError] when [n] is negative or larger
    than the table and touches nothing; otherwise it returns [n] rows drawn
    without replacement: together with the rows left out they are the table, up
    to order. *)
Theorem df_sample_without_replacement :
  forall (A : Type) (df : list A) n random_state w,
    ((n < 0 \/ Z.of_nat (length df) < n)%Z ->
     df_sample df n random_state w = (inl ValueError, w))
    /\ ((0 <= n <= Z.of_nat (length df))%Z ->
        exists rows rest,
          fst (df_sample df n random_state w) = inr rows
          /\ length rows = Z.to_nat n
          /\ Permutation (rows ++ rest) df).
Proof.
  intros A df n random_state w.
  unfold df_sample. split.
  - intros Hn.
    replace ((n <? 0)%Z || (Z.of_nat (length df) <? n)%Z) with true; [reflexivity|].
    symmetry. apply orb_true_iff. destruct Hn; [left|right]; apply Z.ltb_lt; assumption.
  - intros Hn.
    replace ((n <? 0)%Z || (Z.of_nat (length df) <? n)%Z) with false
      by (symmetry; apply orb_false_iff; split; apply Z.ltb_ge; lia).
    destruct random_state as [seed|].
    + destruct (draw_without_replacement df (RandomState seed) Hn)
        as (rows & rest & Ht & Hl & Hp).
      exists rows, rest. unfold lift. rewrite Ht. repeat split; assumption.
    + destruct (draw_without_replacement df (np_random w) Hn)
        as (rows & rest & Ht & Hl & Hp).
      exists rows, rest. rewrite Ht. repeat split; assumption.
Qed.

(** X17: on a file whose title column is text, a loaded table never holds
    a row twice that the cleaning gives once, nor a row the cleaning does not
    give: with the rows the cap leaves out it is the cleaned file, up to
    order. *)
Theorem load_data_keeps_rows_once :
  forall n w raw,
    (0 <= n)%Z -> source_file w = Some raw ->
    infer_dtype (map (@title _ _ _) raw) = ObjectDtype ->
    exists table rest,
      fst (load_data n w) = inr table
      /\ Permutation (table ++ rest) (clean raw).
Proof.
  intros n w raw Hn Hsrc Ht.
  rewrite (@load_data_source n w raw Hsrc), (@finish_text n raw _ Ht).
  destruct (@cap_without_replacement n (clean raw)
              (with_opened w (opened w ++ attempted w)) Hn)
    as (table & rest & Hc & _ & Hp).
  exists table, rest. rewrite Hc. split; [reflexivity|exact Hp].
Qed.

(** X18: with a file to read whose title column is text, a negative cap
    makes the load raise [ValueError], and a cap of 0 gives the empty table;
    when the title column is not text the load raises [AttributeError] whatever
    the cap. *)
Theorem load_data_cap_edges :
  (forall n w raw,
      (n < 0)%Z -> source_file w = Some raw ->
      infer_dtype (map (@title _ _ _) raw) = ObjectDtype ->
      fst (load_data n w) = inl ValueError)
  /\ (forall w raw,
         source_file w = Some raw ->
         infer_dtype (map (@title _ _ _) raw) = ObjectDtype ->
         fst (load_data 0 w) = inr [])
  /\ (forall n w raw,
         source_file w = Some raw ->
         infer_dtype (map (@title _ _ _) raw) = NumericDtype ->
         fst (load_data n w) = inl AttributeError).
Proof.
  assert (Hzero : forall df w0, fst (cap 0 df w0) = inr []).
  { intros df w0. unfold cap, df_sample. destruct df as [|r df]; [reflexivity|].
    replace (0 <? Z.of_nat (length (r :: df)))%Z with true
      by (symmetry; apply Z.ltb_lt; simpl length; lia).
    replace (Z.of_nat (length (r :: df)) <? 0)%Z with false
      by (symmetry; apply Z.ltb_ge; lia).
    reflexivity. }
  split; [|split].
  - intros n w raw Hn Hsrc Ht.
    rewrite (@load_data_source n w raw Hsrc), (@finish_text n raw _ Ht),
      (@cap_negative n _ _ Hn).
    reflexivity.
  - intros w raw Hsrc Ht.
    rewrite (@load_data_source 0%Z w raw Hsrc), (@finish_text 0%Z raw _ Ht).
    apply Hzero.
  - intros n w raw Hsrc Ht.
    rewrite (@load_data_source n w raw Hsrc), (@finish_numeric n raw _ Ht).
    reflexivity.
Qed.

(** X19: a call of the cached loader whose argument has an entry returns
    the stored table and reads no file; a call without an entry runs the loader
    once; a table returned is then stored under the argument, a failure stores
    nothing, and the entries of other arguments stay as they are. *)
Theorem st_cache_data_load :
  forall n w,
    (forall df, cache_lookup n (cache w) = Some df ->
                st_cache_data load_data n w = (inr df, w))
    /\ (cache_lookup n (cache w) = None ->
        fst (st_cache_data load_data n w) = fst (load_data n w)
        /\ opened (snd (st_cache_data load_data n w)) = opened w ++ attempted w)
    /\ (forall t, fst (st_cache_data load_data n w) = inr t ->
                  cache_lookup n (cache (snd (st_cache_data load_data n w))) = Some t)
    /\ (forall e, fst (st_cache_data load_data n w) = inl e ->
                  cache (snd (st_cache_data load_data n w)) = cache w)
    /\ (forall m, m <> n ->
                  cache_lookup m (cache (snd (st_cache_data load_data n w)))
                  = cache_lookup m (cache w)).
Proof.
  intros n w. pose proof (load_data_world n w) as Hw. unfold st_cache_data.
  destruct (cache_lookup n (cache w)) as [df0|] eqn:Hc.
  - split; [intros df H; inversion H; reflexivity|]. split; [discriminate|].
    split; [intros t H; inversion H; subst; exact Hc|].
    split; [discriminate|reflexivity].
  - destruct (load_data n w) as [[e|df] w'] eqn:Hl; simpl in Hw; subst w'; simpl.
    + split; [discriminate|]. split; [split; reflexivity|].
      split; [discriminate|]. split; reflexivity.
    + split; [discriminate|]. split; [split; reflexivity|].
      split; [intros t H; inversion H; subst; rewrite Z.eqb_refl; reflexivity|].
      split; [discriminate|]. intros m Hm.
      destruct (Z.eqb_spec n m); [congruence|reflexivity].
Qed.

(* ================================================================= *)
(** ** Runs of the script *)

Lemma bind_emit (B : Type) e (k : unit -> M B) w :
  bind (emit e) k w = k tt (with_page w (page w ++ [e])).
Proof. reflexivity. Qed.

Lemma bind_lift_inr (A B : Type) (a : A) (k : A -> M B) w :
  bind (lift (inr a)) k w = k a w.
Proof. reflexivity. Qed.

Lemma bind_ret (A B : Type) (a : A) (k : A -> M B) w : bind (ret a) k w = k a w.
Proof. reflexivity. Qed.

Lemma bind_slider (B : Type) label lo hi default (k : Z * Z -> M B) w :
  (lo < hi)%Z ->
  bind (st_slider label lo hi default) k w
  = k (match slider_state w with Some v => v | None => default end)
      (with_page w (page w ++ [Slider label lo hi default])).
Proof.
  intros H. apply Z.ltb_lt in H. unfold st_slider. rewrite H. reflexivity.
Qed.

Lemma bind_slider_fail (B : Type) label lo hi default (k : Z * Z -> M B) w :
  (hi <= lo)%Z ->
  bind (st_slider label lo hi default) k w = (inl StreamlitAPIException, w).
Proof.
  intros H. apply Z.ltb_ge in H. unfold st_slider. rewrite H. reflexivity.
Qed.

Lemma bind_run (A B : Type) (m : M A) (k : A -> M B) w a w' :
  m w = (inr a, w') -> bind m k w = k a w'.
Proof. intros H. unfold bind. rewrite H. reflexivity. Qed.

Lemma bind_fail (A B : Type) (m : M A) (k : A -> M B) w e w' :
  m w = (inl e, w') -> bind m k w = (inl e, w').
Proof. intros H. unfold bind. rewrite H. reflexivity. Qed.

Lemma cached_load_state n w r w1 :
  st_cache_data load_data n w = (r, w1) ->
  slider_state w1 = slider_state w /\ page w1 = page w /\ np_random w1 = np_random w.
Proof.
  pose proof (load_data_world n w) as Hw. unfold st_cache_data.
  destruct (cache_lookup n (cache w)).
  - intros H. inversion H. repeat split.
  - destruct (load_data n w) as [[e|df] w']; simpl in Hw; subst w';
      intros H; inversion H; repeat split.
Qed.

Lemma value_counts_nonempty col :
  col <> [] -> exists x s, value_counts_sort_index col = x :: s.
Proof.
  intros Hne. destruct (value_counts_invariant col) as (_ & _ & _ & Hsum).
  destruct (value_counts_sort_index col) as [|x s]; [|eauto].
  simpl in Hsum. symmetry in Hsum. apply length_zero_iff_nil in Hsum. congruence.
Qed.

Lemma year_between_full (D W : Type) (r : Row D Z W) df :
  year_between (fold_left Z.min (map (@year D Z W) df) (year r))
               (fold_left Z.max (map (@year D Z W) df) (year r)) (r :: df)
  = r :: df.
Proof.
  rewrite year_between_filter. apply filter_all. intros x Hx.
  apply (in_map (@year D Z W)) in Hx. simpl map in Hx.
  apply andb_true_iff. split; apply Z.leb_le;
    [apply fold_min_le|apply fold_max_ge]; exact Hx.
Qed.

(** Where a run of the script stops, once the table is loaded, when no
    row is left to show or the slider cannot be made. *)
Lemma app_after_load w df w1 :
  st_cache_data load_data 50000%Z
    (with_page w (page w ++ [PageConfig "CORD-19 Data Explorer" "wide"]))
  = (inr df, w1) ->
  match df with
  | [] => fst (app w) = inl ValueError
  | r :: df' =>
      let lo := fold_left Z.min (map (@year _ _ _) df') (year r) in
      let hi := fold_left Z.max (map (@year _ _ _) df') (year r) in
      if (lo <? hi)%Z
      then forall a b, slider_state w = Some (a, b) -> year_between a b df = [] ->
                       fst (app w) = inl ValueError
      else fst (app w) = inl StreamlitAPIException
  end.
Proof.
  intros H. destruct (cached_load_state _ _ H) as (Hs & _ & _).
  unfold app. rewrite bind_emit. cbv beta.
  rewrite (@bind_run _ _ _ _ _ _ _ H). clear H.
  destruct w1 as [f o g c sl p]. simpl in Hs. subst sl.
  repeat (rewrite bind_emit; cbv beta;
          cbn [with_page files opened np_random cache slider_state page]).
  destruct df as [|r df']; [reflexivity|].
  cbn [map series_min series_max py_int].
  repeat (rewrite bind_lift_inr; cbv beta).
  cbv zeta.
  destruct (fold_left Z.min (map (@year _ _ _) df') (year r)
            <? fold_left Z.max (map (@year _ _ _) df') (year r))%Z eqn:Hlt.
  - intros a b Hsl Hf. apply Z.ltb_lt in Hlt.
    rewrite (bind_slider _ _ _ _ Hlt). cbv beta.
    cbn [with_page files opened np_random cache slider_state page].
    rewrite Hsl. cbn [fst snd]. rewrite Hf.
    repeat (rewrite bind_emit; cbv beta;
            cbn [with_page files opened np_random cache slider_state page]).
    reflexivity.
  - apply Z.ltb_ge in Hlt. rewrite (bind_slider_fail _ _ _ _ Hlt). reflexivity.
Qed.

(** X20: once the table is loaded, the script raises [ValueError] when the
    table is empty (at the slider: [int(nan)]), [StreamlitAPIException] when
    all its rows have the same year (at the slider: the two ends are equal),
    and [ValueError] when it spans several years and the range selected holds
    no row of it (at the peak year). *)
Theorem app_raises_without_rows :
  forall w df w1,
    st_cache_data load_data 50000%Z
      (with_page w (page w ++ [PageConfig "CORD-19 Data Explorer" "wide"]))
    = (inr df, w1) ->
    (df = [] -> fst (app w) = inl ValueError)
    /\ (forall lo hi,
           series_min (map (@year _ _ _) df) = Some lo ->
           series_max (map (@year _ _ _) df) = Some hi ->
           (hi <= lo)%Z ->
           fst (app w) = inl StreamlitAPIException)
    /\ (forall lo hi a b,
           series_min (map (@year _ _ _) df) = Some lo ->
           series_max (map (@year _ _ _) df) = Some hi ->
           (lo < hi)%Z ->
           slider_state w = Some (a, b) -> year_between a b df = [] ->
           fst (app w) = inl ValueError).
Proof.
  intros w df w1 H. pose proof (app_after_load _ H) as Ha.
  destruct df as [|r df']; [repeat split; try discriminate; intros; exact Ha|].
  cbn zeta in Ha. split; [discriminate|]. split.
  - intros lo hi Hlo Hhi Hle. simpl in Hlo, Hhi.
    inversion Hlo; subst lo. inversion Hhi; subst hi.
    apply Z.ltb_ge in Hle. rewrite Hle in Ha. exact Ha.
  - intros lo hi a b Hlo Hhi Hlt Hs Hf. simpl in Hlo, Hhi.
    inversion Hlo; subst lo. inversion Hhi; subst hi.
    apply Z.ltb_lt in Hlt. rewrite Hlt in Ha. exact (Ha a b Hs Hf).
Qed.

End Script.

Lemma many_words_split n : length (str_split (many_words n)) = n.
Proof.
  unfold str_split, maximal_runs. rewrite length_map.
  induction n as [|n IH]; [reflexivity|].
  simpl. rewrite IH. reflexivity.
Qed.

Lemma identity_permutation_spec g n : Permutation (identity_permutation g n) (seq 0 n).
Proof. apply Permutation_refl. Defined.

(* ================================================================= *)
(** ** Runs on a concrete disk *)

Abbreviation load :=
  (load_data iso_to_datetime digits_are_numbers seeded identity_permutation next_state).
Abbreviation run_app :=
  (app iso_to_datetime digits_are_numbers seeded identity_permutation next_state
       no_journals).

Example load_mixed_file :
  fst (load 50000%Z (first_run (Some mixed_file) None))
  = inr [mkRow (Some "Masks and transmission") (Some (mkTimestamp 2020 3 1))
               (Some "Nature") (Some "Doe, J.") 2020%Z 3%Z].
Proof. reflexivity. Qed.

(** What a date parses to depends on the column it is in. *)
Example to_datetime_by_column :
  iso_to_datetime [Some "2021"] = [Some (mkTimestamp 2021 1 1)]
  /\ iso_to_datetime [Some "2020-03-01"; Some "2021"; Some "n.d."]
     = [Some (mkTimestamp 2020 3 1); None; None]
  /\ fst (load 50000%Z (first_run (Some [paper "Vaccine trial results" "2021"]) None))
     = inr [mkRow (Some "Vaccine trial results") (Some (mkTimestamp 2021 1 1))
                  (Some "Nature") (Some "Doe, J.") 2021%Z 3%Z]
  /\ fst (load 50000%Z (first_run (Some [paper "Masks and transmission" "2020-03-01";
                                         paper "Vaccine trial results" "2021"]) None))
     = inr [mkRow (Some "Masks and transmission") (Some (mkTimestamp 2020 3 1))
                  (Some "Nature") (Some "Doe, J.") 2020%Z 3%Z].
Proof. repeat split. Qed.

Example run_app_three_papers :
  fst (app iso_to_datetime digits_are_numbers seeded identity_permutation next_state
           journal_counts (first_run (Some three_papers) None))
  = inr tt.
Proof. reflexivity. Qed.

(** A sample without [random_state] follows the global generator; the
    seeded sample of [load_data] does not. *)
Example unseeded_sample_follows_generator :
  let df := [10; 20; 30]%Z in
  let w0 := first_run None None in
  let w1 := with_np_random w0 1 in
  fst (df_sample seeded parity_permutation next_state df 2 None w0) = inr [10; 20]%Z
  /\ fst (df_sample seeded parity_permutation next_state df 2 None w1) = inr [30; 20]%Z
  /\ fst (df_sample seeded parity_permutation next_state df 2 (Some 42%Z) w0)
     = fst (df_sample seeded parity_permutation next_state df 2 (Some 42%Z) w1).
Proof. repeat split. Qed.

Lemma load_data_retained_witness :
  exists table w',
    load 50000%Z (first_run (Some mixed_file) None) = (inr table, w')
    /\ Forall (fun r => title r <> None /\ publish_time r <> None
                        /\ (2019 <= year r <= 2023)%Z) table.
Proof.
  eexists. eexists. split; [vm_compute; reflexivity|].
  eapply (proj1 (load_data_retained iso_to_datetime digits_are_numbers seeded
                   identity_permutation next_state identity_permutation_spec)
                50000%Z (first_run (Some mixed_file) None)).
  vm_compute. reflexivity.
Defined.

Lemma title_word_count_int16_witness :
  exists table w',
    load 50000%Z (first_run (Some three_papers) None) = (inr table, w')
    /\ map (@title_word_count _ _ _) table = [4%Z; 3%Z; 4%Z]
    /\ Forall (fun r =>
                 exists t, title r = Some t
                   /\ title_word_count r = wrap16 (Z.of_nat (length (str_split t)))
                   /\ ((Z.of_nat (length (str_split t)) <= 32767)%Z ->
                       title_word_count r = Z.of_nat (length (str_split t))))
              table.
Proof.
  eexists. eexists. split; [vm_compute; reflexivity|]. split; [reflexivity|].
  eapply (proj1 (title_word_count_int16 iso_to_datetime digits_are_numbers seeded
                   identity_permutation next_state)
                50000%Z (first_run (Some three_papers) None)).
  vm_compute. reflexivity.
Defined.

(** C4 as stated fails: a title of 32768 words, dated 2020, is kept with
    the title word count -32768. *)
Lemma title_word_count_wraps :
  let t := many_words (Z.to_nat 32768) in
  exists r,
    fst (load 50000%Z (first_run (Some [paper t "2020-01-01"]) None)) = inr [r]
    /\ title r = Some t
    /\ Z.of_nat (length (str_split t)) = 32768%Z
    /\ title_word_count r = (-32768)%Z
    /\ title_word_count r <> Z.of_nat (length (str_split t)).
Proof.
  intros t.
  assert (Hlen : Z.of_nat (length (str_split t)) = 32768%Z).
  { unfold t. rewrite many_words_split. apply Z2Nat.id. lia. }
  assert (Htext : digits_are_numbers (map (@title _ _ _) [paper t "2020-01-01"])
                  = ObjectDtype).
  { unfold t. replace (Z.to_nat 32768) with (S (Z.to_nat 32767)) by lia.
    reflexivity. }
  clearbody t.
  exists (mkRow (Some t) (Some (mkTimestamp 2020 1 1)) (Some "Nature") (Some "Doe, J.")
                2020%Z (wrap16 (Z.of_nat (length (str_split t))))).
  split.
  { rewrite (@load_data_source iso_to_datetime digits_are_numbers seeded
               identity_permutation next_state 50000%Z
               (first_run (Some [paper t "2020-01-01"]) None)
               [paper t "2020-01-01"] eq_refl).
    rewrite (@finish_text iso_to_datetime digits_are_numbers seeded
               identity_permutation next_state 50000%Z [paper t "2020-01-01"] _ Htext).
    reflexivity. }
  cbn [title title_word_count]. rewrite Hlen.
  repeat split; discriminate.
Qed.


Lemma load_data_sources_witness :
  exists table,
    fst (load 50000%Z (first_run None (Some three_papers))) = inr table
    /\ Forall (fun r => In r (clean iso_to_datetime three_papers)) table.
Proof.
  exact (proj2 (proj2 (proj2 (load_data_sources iso_to_datetime digits_are_numbers
                                seeded identity_permutation next_state
                                identity_permutation_spec)))
               50000%Z (first_run None (Some three_papers)) three_papers
               (or_intror (conj eq_refl eq_refl))).
Defined.

(** C3 as stated fails: on a file whose titles are all numbers, or all
    missing, the rows to drop are not dropped one by one: the load raises
    [AttributeError] at the title word count and returns no table. *)
Lemma load_data_raises_on_numeric_titles :
  fst (load 50000%Z (first_run (Some numbered_file) None)) = inl AttributeError
  /\ fst (load 50000%Z (first_run (Some untitled_file) None)) = inl AttributeError.
Proof. split; reflexivity. Qed.

(** C9 as stated fails: with [metadata.csv] on the disk the load can fail,
    and not with [FileNotFoundError]: on titles that are all numbers it raises
    [AttributeError], and with a negative cap [ValueError]. *)
Lemma load_data_fails_with_file_present :
  files (first_run (Some numbered_file) None) "metadata.csv" = Some numbered_file
  /\ fst (load 50000%Z (first_run (Some numbered_file) None)) = inl AttributeError
  /\ files (first_run (Some three_papers) None) "metadata.csv" = Some three_papers
  /\ fst (load (-1)%Z (first_run (Some three_papers) None)) = inl ValueError.
Proof. repeat split. Qed.

Lemma year_between_inclusive_witness :
  let df := clean iso_to_datetime three_papers in
  series_min (map (@year _ _ _) df) = Some 2019%Z
  /\ series_max (map (@year _ _ _) df) = Some 2021%Z
  /\ year_between 2019 2021 df = df.
Proof.
  intros df. split; [reflexivity|]. split; [reflexivity|].
  apply (proj2 (proj2 year_between_inclusive) _ _ df 2019%Z 2021%Z); reflexivity.
Defined.

Lemma sample_display_safe_witness :
  let filtered := clean iso_to_datetime three_papers in
  let n := Z.min 10 (Z.of_nat (length filtered)) in
  (0 <= n <= Z.of_nat (length filtered))%Z
  /\ exists rows,
       fst (df_sample seeded identity_permutation next_state filtered n None
                      (first_run (Some three_papers) None)) = inr rows
       /\ Z.of_nat (length rows) = n
       /\ Forall (fun r => In r filtered) rows.
Proof.
  exact (sample_display_safe seeded identity_permutation next_state
           identity_permutation_spec
           (clean iso_to_datetime three_papers) (first_run (Some three_papers) None)).
Defined.

(** C8 fails on the code: a file whose rows are all dropped loads as an
    empty table, and the script raises at the slider, with the header alone on
    the page; with rows in 2019 and 2021 and the range 2020-2020 selected, the
    script shows 0 papers in range and raises at the peak year. *)
Theorem app_raises_on_empty_table :
  let w := first_run (Some [paper "An older study" "2018-06-01"]) None in
  let w2 := rerun (Some [paper "Vaccine trial results" "2019-12-01";
                         paper "Long covid cohort study" "2021-07-15"])
                  None (2020%Z, 2020%Z) in
  fst (load 50000%Z w) = inr []
  /\ fst (run_app w) = inl ValueError
  /\ page (snd (run_app w))
     = [PageConfig "CORD-19 Data Explorer" "wide";
        Title "CORD-19 Research Data Explorer";
        Markdown [Lit "### Exploring COVID-19 Research Papers"];
        Markdown [Lit "**Dataset contains:** "; NumComma 0; Lit " research papers"];
        SidebarHeader "Filter Options"]
  /\ fst (run_app w2) = inl ValueError
  /\ last (page (snd (run_app w2))) (Title "")
     = Metric "Total Papers in Range" (VInt 0).
Proof. vm_compute. repeat split. Qed.

(* ================================================================= *)
(** ** More runs on a concrete disk *)

Lemma word_frequency_keys_wellformed_witness :
  In ("covid", 2) (get_word_frequency [Some "COVID-19 and Covid vaccines"; None])
  /\ Forall (fun c => Char.is_ascii_lower c = true) (chars "covid")
  /\ 3 <= String.length "covid"
  /\ ~ In "covid" stop_words
  /\ 1 <= 2.
Proof.
  assert (H : In ("covid", 2)
                 (get_word_frequency [Some "COVID-19 and Covid vaccines"; None]))
    by (left; reflexivity).
  split; [exact H|].
  exact (word_frequency_keys_wellformed _ _ _ H).
Defined.

Lemma title_word_count_exact_below_65535_witness :
  exists table w',
    load 50000%Z (first_run (Some three_papers) None) = (inr table, w')
    /\ Forall (fun r =>
                 forall t, title r = Some t ->
                           (Z.of_nat (String.length t) < 65535)%Z ->
                           title_word_count r = Z.of_nat (length (str_split t))
                           /\ (0 <= title_word_count r <= 32767)%Z)
              table.
Proof.
  eexists. eexists. split; [vm_compute; reflexivity|].
  eapply (title_word_count_exact_below_65535 iso_to_datetime digits_are_numbers
            seeded identity_permutation next_state 50000%Z
            (first_run (Some three_papers) None)).
  vm_compute. reflexivity.
Defined.

Lemma filtered_rows_keep_invariants_witness :
  exists df w',
    load 50000%Z (first_run (Some three_papers) None) = (inr df, w')
    /\ length (year_between 2020 2021 df) = 2
    /\ Forall (fun r => In r df /\ title r <> None
                        /\ (Z.max 2020 2019 <= year r <= Z.min 2021 2023)%Z)
              (year_between 2020 2021 df).
Proof.
  eexists. eexists. split; [vm_compute; reflexivity|]. split; [reflexivity|].
  eapply (filtered_rows_keep_invariants iso_to_datetime digits_are_numbers seeded
            identity_permutation next_state 50000%Z
            (first_run (Some three_papers) None)).
  vm_compute. reflexivity.
Defined.

Lemma peak_year_earliest_busiest_witness :
  let col := [2021; 2020; 2019; 2021; 2020]%Z in
  idxmax (value_counts_sort_index col) = inr 2020%Z
  /\ exists y,
       idxmax (value_counts_sort_index col) = inr y
       /\ In y col
       /\ (forall y', count_occ Z.eq_dec col y' <= count_occ Z.eq_dec col y)
       /\ (forall y', count_occ Z.eq_dec col y' = count_occ Z.eq_dec col y -> (y <= y')%Z)
       /\ counts_max (value_counts_sort_index col) = Some (count_occ Z.eq_dec col y).
Proof.
  intros col. split; [reflexivity|].
  apply (@peak_year_earliest_busiest col). discriminate.
Defined.

Lemma years_covered_at_most_5_witness :
  exists df w',
    load 50000%Z (first_run (Some three_papers) None) = (inr df, w')
    /\ years_covered (map (@year _ _ _) (year_between 2019 2021 df)) = Num 3
    /\ match map (@year _ _ _) (year_between 2019 2021 df) with
       | [] => years_covered (map (@year _ _ _) (year_between 2019 2021 df)) = Float NaN
       | _ :: _ =>
           exists a b,
             series_min (map (@year _ _ _) (year_between 2019 2021 df)) = Some a
             /\ series_max (map (@year _ _ _) (year_between 2019 2021 df)) = Some b
             /\ years_covered (map (@year _ _ _) (year_between 2019 2021 df))
                = Num (b - a + 1)
             /\ (1 <= b - a + 1 <= 5)%Z
       end.
Proof.
  eexists. eexists. split; [vm_compute; reflexivity|]. split; [reflexivity|].
  eapply (years_covered_at_most_5 iso_to_datetime digits_are_numbers seeded
            identity_permutation next_state 50000%Z
            (first_run (Some three_papers) None)).
  vm_compute. reflexivity.
Defined.

Lemma df_sample_without_replacement_witness :
  let df := [10; 20; 30]%Z in
  let w := first_run None None in
  (((-1 < 0)%Z \/ (Z.of_nat (length df) < -1)%Z ->
    df_sample seeded identity_permutation next_state df (-1) None w
    = (inl ValueError, w))
   /\ ((0 <= -1 <= Z.of_nat (length df))%Z ->
       exists rows rest,
         fst (df_sample seeded identity_permutation next_state df (-1) None w) = inr rows
         /\ length rows = Z.to_nat (-1)
         /\ Permutation (rows ++ rest) df))
  /\ exists rows rest,
       fst (df_sample seeded identity_permutation next_state df 2 None w) = inr rows
       /\ length rows = Z.to_nat 2
       /\ Permutation (rows ++ rest) df.
Proof.
  intros df w. split.
  - exact (df_sample_without_replacement seeded identity_permutation next_state
             identity_permutation_spec df (-1)%Z None w).
  - apply (proj2 (df_sample_without_replacement seeded identity_permutation next_state
                    identity_permutation_spec df 2%Z None w)).
    simpl. lia.
Defined.

Lemma load_data_keeps_rows_once_witness :
  exists table rest,
    fst (load 2%Z (first_run (Some three_papers) None)) = inr table
    /\ Permutation (table ++ rest) (clean iso_to_datetime three_papers).
Proof.
  apply (@load_data_keeps_rows_once iso_to_datetime digits_are_numbers seeded
           identity_permutation next_state identity_permutation_spec 2%Z
           (first_run (Some three_papers) None) three_papers).
  - lia.
  - reflexivity.
  - reflexivity.
Defined.

Lemma app_raises_without_rows_witness :
  let w := first_run (Some [paper "An older study" "2018-06-01"]) None in
  let w1 := first_run (Some [paper "Vaccine trial results" "2020-12-01"]) None in
  let w2 := rerun (Some [paper "Vaccine trial results" "2019-12-01";
                         paper "Long covid cohort study" "2021-07-15"])
                  None (2020%Z, 2020%Z) in
  fst (run_app w) = inl ValueError
  /\ fst (run_app w1) = inl StreamlitAPIException
  /\ fst (run_app w2) = inl ValueError.
Proof.
  intros w w1 w2.
  assert (H : forall w0, exists df w',
             st_cache_data load 50000%Z
               (with_page w0 (page w0 ++ [PageConfig "CORD-19 Data Explorer" "wide"]))
             = (fst (st_cache_data load 50000%Z
                       (with_page w0
                          (page w0 ++ [PageConfig "CORD-19 Data Explorer" "wide"]))),
                w')
             /\ df = fst (st_cache_data load 50000%Z
                            (with_page w0
                               (page w0
                                  ++ [PageConfig "CORD-19 Data Explorer" "wide"]))))
    by (intros w0; eexists; eexists; split; [apply surjective_pairing|reflexivity]).
  split; [|split].
  - destruct (H w) as (df & w' & Hl & _).
    exact (proj1 (@app_raises_without_rows iso_to_datetime digits_are_numbers seeded
                    identity_permutation next_state no_journals w [] w' Hl)
                 eq_refl).
  - destruct (H w1) as (df & w' & Hl & _).
    exact (proj1 (proj2 (@app_raises_without_rows iso_to_datetime digits_are_numbers
                           seeded identity_permutation next_state no_journals
                           w1 _ w' Hl))
                 2020%Z 2020%Z eq_refl eq_refl (Z.le_refl 2020)).
  - destruct (H w2) as (df & w' & Hl & _).
    exact (proj2 (proj2 (@app_raises_without_rows iso_to_datetime digits_are_numbers
                           seeded identity_permutation next_state no_journals
                           w2 _ w' Hl))
                 2019%Z 2021%Z 2020%Z 2020%Z eq_refl eq_refl eq_refl eq_refl eq_refl).
Defined.
